(** * ajou-notice-discord-bot: the worker of [src/index.ts], embedded and verified

    The worker keeps one row per Discord webhook in the D1 table
    [discord_bot] ([src/schema.ts]) and, on demand or on a cron tick,
    fetches the notice list for the row's query, advances the row's
    [latestId] and posts the notices that are newer than it.

    The embedding is a state-and-exception monad over a [World] made of the
    table and the chronological trace of every outbound call.  The three
    collaborators (the D1 database, the [NOTICE_WORKER] service binding and
    the webhook endpoint reached through the global [fetch]) answer as
    functions of the trace so far, so that they may fail or change their
    answer at any call. *)

From Stdlib Require Import ZArith List String Ascii Bool Lia Sorted.
Import ListNotations.
Local Open Scope string_scope.
Local Open Scope list_scope.
Local Open Scope Z_scope.

(** ** Data model *)

(** [interface Notice] of [index.ts]. *)
Record Notice := mkNotice {
  id : Z;
  category : string;
  department : string;
  title : string;
  content : string;
  url : string;
  date : string
}.

(** [interface Payload]: every field is optional. *)
Record Payload := mkPayload {
  p_category : option string;
  p_department : option string;
  p_search : option string
}.

(** A row of [discordBotTable] ([schema.ts]); [webhook] is the primary key. *)
Record DiscordBot := mkDiscordBot {
  webhook : string;
  latestId : Z;
  queryParams : string
}.

(** A [FormData] or [URLSearchParams] object: the appended pairs, in order. *)
Definition Form := list (string * string).

Inductive Body :=
| BodyText (text : string)
| BodyJson (info : DiscordBot).

Record Response := mkResponse {
  status : Z;
  body : Body;
  headers : list (string * string)
}.

(** What the handler reads of a [Request]: [json_body] is [None] when
    [request.json()] rejects. *)
Record Request := mkRequest {
  method : string;
  pathname : string;
  searchParams : list (string * string);
  json_body : option Payload
}.

(** ** Outbound calls and the world *)

Inductive Event :=
| DbSelect (key : string)
| DbSelectAll
| DbInsert (row : DiscordBot)
| DbUpdate (key : string) (newLatestId : Z)
| DbDelete (key : string)
| NoticeFetch (target : string)
| WebhookPost (target : string) (form : Form).

(** A body that [response.json()] parses but that is not a [Notice[]] (the
    annotation on [notices] is erased at run time), as far as the handlers
    look at it:
    - [ShapeNull]: the value [null];
    - [ShapeNotArray zero_id]: a number, a boolean, a string or an object;
      [zero_id] is the integer [id] of its property [0] when it has one, and
      [None] when [notices[0]?.id] is undefined or null;
    - [ShapeArrayWithNull ids]: an array with a [null] element; [ids] are the
      integer [id]s of the elements before the first [null], with [None] for
      an element whose [id] is undefined. *)
Inductive Shape :=
| ShapeNull
| ShapeNotArray (zero_id : option Z)
| ShapeArrayWithNull (ids : list (option Z)).

(** Outcome of [NOTICE_WORKER.fetch] followed by [response.json()]: the call
    is rejected, the body is not JSON, the body is a [Notice[]], or the body
    parses to a value of another shape. *)
Inductive FeedResult :=
| FeedRejected
| FeedNotJson
| Feed (notices : list Notice)
| FeedOther (shape : Shape).

(** The value bound to [notices]. *)
Inductive Parsed :=
| Notices (notices : list Notice)
| Other (shape : Shape).

(** Outcome of the global [fetch] on a webhook: it rejects on a network
    failure only; a response of any status resolves. *)
Inductive PostResult :=
| PostRejected
| PostResolved (code : Z).

(** Exceptions, named after what caused them: the body of the request
    ([request.json()] rejects), the call of the notice service, the body of
    its response ([response.json()] rejects, or the handler throws a
    [TypeError] while it reads a parsed value that is not a [Notice[]]), a D1
    statement, the POST to a webhook. *)
Inductive Exn :=
| RequestJsonError
| NoticeWorkerError
| NoticeJsonError
| D1Error
| WebhookFetchError.

Record Env := mkEnv {
  DB : list Event -> bool;
  NOTICE_WORKER : list Event -> FeedResult;
  global_fetch : list Event -> PostResult
}.

Record World := mkWorld {
  table : list DiscordBot;
  trace : list Event
}.

Inductive Outcome (A : Type) :=
| Returned (a : A)
| Threw (e : Exn).
Arguments Returned {A} a.
Arguments Threw {A} e.

(** ** The monad of handlers *)

Definition M (A : Type) : Type := World -> Outcome A * World.

Definition ret {A} (a : A) : M A := fun w => (Returned a, w).

Definition throw {A} (e : Exn) : M A := fun w => (Threw e, w).

Definition bind {A B} (m : M A) (k : A -> M B) : M B :=
  fun w =>
    match m w with
    | (Returned a, w1) => k a w1
    | (Threw e, w1) => (Threw e, w1)
    end.

(** [try { m } catch (error) { h }] *)
Definition try_catch {A} (m : M A) (h : M A) : M A :=
  fun w =>
    match m w with
    | (Returned a, w1) => (Returned a, w1)
    | (Threw _, w1) => h w1
    end.

Declare Scope handler_scope.
Delimit Scope handler_scope with handler.
Notation "x <- m ;; k" := (bind m (fun x => k))
  (at level 61, m at next level, right associativity) : handler_scope.
Notation "m ;;; k" := (bind m (fun _ => k))
  (at level 61, right associativity) : handler_scope.
Local Open Scope handler_scope.

(** [for (const x of xs) { await f(x) }] *)
Fixpoint for_of {A} (xs : list A) (f : A -> M unit) : M unit :=
  match xs with
  | [] => ret tt
  | x :: rest => f x ;;; for_of rest f
  end.

(** ** The D1 table through drizzle *)

Definition has_key (k : string) (r : DiscordBot) : bool := (webhook r =? k)%string.

(** [db.select().from(discordBot).where(eq(discordBot.webhook, k)).get()] *)
Definition db_select_get (env : Env) (k : string) : M (option DiscordBot) :=
  fun w =>
    let h := trace w ++ [DbSelect k] in
    if DB env h
    then (Returned (find (has_key k) (table w)), mkWorld (table w) h)
    else (Threw D1Error, mkWorld (table w) h).

(** [db.select().from(discordBot).all()] *)
Definition db_select_all (env : Env) : M (list DiscordBot) :=
  fun w =>
    let h := trace w ++ [DbSelectAll] in
    if DB env h
    then (Returned (table w), mkWorld (table w) h)
    else (Threw D1Error, mkWorld (table w) h).

(** [db.insert(discordBot).values(row)]; the primary key refuses a second
    row with the same [webhook]. *)
Definition db_insert (env : Env) (row : DiscordBot) : M unit :=
  fun w =>
    let h := trace w ++ [DbInsert row] in
    if DB env h && negb (existsb (has_key (webhook row)) (table w))
    then (Returned tt, mkWorld (table w ++ [row]) h)
    else (Threw D1Error, mkWorld (table w) h).

Definition set_latestId (k : string) (v : Z) (r : DiscordBot) : DiscordBot :=
  if has_key k r then mkDiscordBot (webhook r) v (queryParams r) else r.

(** [db.update(discordBot).set({ latestId }).where(eq(discordBot.webhook, k))] *)
Definition db_update_latestId (env : Env) (k : string) (v : Z) : M unit :=
  fun w =>
    let h := trace w ++ [DbUpdate k v] in
    if DB env h
    then (Returned tt, mkWorld (map (set_latestId k v) (table w)) h)
    else (Threw D1Error, mkWorld (table w) h).

(** [db.delete(discordBot).where(eq(discordBot.webhook, k))]; the result is
    [result.meta.rows_read], counted as the rows the key selects. *)
Definition db_delete (env : Env) (k : string) : M Z :=
  fun w =>
    let h := trace w ++ [DbDelete k] in
    if DB env h
    then (Returned (Z.of_nat (List.length (filter (has_key k) (table w)))),
          mkWorld (filter (fun r => negb (has_key k r)) (table w)) h)
    else (Threw D1Error, mkWorld (table w) h).

(** ** The notice service and the webhook endpoint *)

(** [await env.NOTICE_WORKER.fetch(target, { method: 'GET' })] and then
    [await response.json()]. *)
Definition notice_worker_fetch_json (env : Env) (target : string) : M Parsed :=
  fun w =>
    let h := trace w ++ [NoticeFetch target] in
    match NOTICE_WORKER env h with
    | FeedRejected => (Threw NoticeWorkerError, mkWorld (table w) h)
    | FeedNotJson => (Threw NoticeJsonError, mkWorld (table w) h)
    | Feed notices => (Returned (Notices notices), mkWorld (table w) h)
    | FeedOther shape => (Returned (Other shape), mkWorld (table w) h)
    end.

(** [await fetch(target, { method: 'POST', body: form })]; the response is
    dropped. *)
Definition fetch_post (env : Env) (target : string) (form : Form) : M unit :=
  fun w =>
    let h := trace w ++ [WebhookPost target form] in
    match global_fetch env h with
    | PostRejected => (Threw WebhookFetchError, mkWorld (table w) h)
    | PostResolved _ => (Returned tt, mkWorld (table w) h)
    end.

(** [await request.json()] *)
Definition request_json (request : Request) : M Payload :=
  match json_body request with
  | Some p => ret p
  | None => throw RequestJsonError
  end.

(** ** URLSearchParams *)

Definition hex_digit (n : nat) : ascii :=
  nth n ["0"; "1"; "2"; "3"; "4"; "5"; "6"; "7"; "8"; "9";
         "A"; "B"; "C"; "D"; "E"; "F"]%char "0"%char.

Definition urlencoded_keep (c : ascii) : bool :=
  let n := nat_of_ascii c in
  ((48 <=? n) && (n <=? 57) || (65 <=? n) && (n <=? 90) || (97 <=? n) && (n <=? 122)
   || (n =? 42) || (n =? 45) || (n =? 46) || (n =? 95))%nat.

(** The application/x-www-form-urlencoded byte serializer of the platform,
    on the UTF-8 bytes of the string. *)
Fixpoint urlencode (s : string) : string :=
  match s with
  | EmptyString => EmptyString
  | String c rest =>
      if urlencoded_keep c then String c (urlencode rest)
      else if (nat_of_ascii c =? 32)%nat then String "+" (urlencode rest)
      else String "%" (String (hex_digit (nat_of_ascii c / 16))
                         (String (hex_digit (nat_of_ascii c mod 16)) (urlencode rest)))
  end.

(** [URLSearchParams.prototype.toString] *)
Fixpoint params_toString (ps : list (string * string)) : string :=
  match ps with
  | [] => ""
  | [(k, v)] => (urlencode k ++ "=" ++ urlencode v)%string
  | (k, v) :: rest =>
      (urlencode k ++ "=" ++ urlencode v ++ "&" ++ params_toString rest)%string
  end.

(** [URLSearchParams.prototype.get] *)
Definition params_get (name : string) (ps : list (string * string)) : option string :=
  match find (fun kv => (fst kv =? name)%string) ps with
  | Some kv => Some (snd kv)
  | None => None
  end.

(** JavaScript truthiness of an optional string: [undefined], [null] and the
    empty string are falsy. *)
Definition truthy (o : option string) : bool :=
  match o with
  | Some s => negb (s =? "")%string
  | None => false
  end.

(** [if (v) queryParams.append(name, v)] *)
Definition append_if (name : string) (o : option string) (ps : list (string * string))
  : list (string * string) :=
  match o with
  | Some v => if truthy o then ps ++ [(name, v)] else ps
  | None => ps
  end.

(** ** Handlers of [index.ts] *)

Definition API_URL : string := "https://ajou-notice.asitis.workers.dev".

Definition AVATAR_URL : string :=
  "https://www.ajou.ac.kr/_res/ajou/kr/img/intro/img-symbol.png".

Definition LF : string := String (ascii_of_nat 10) EmptyString.

(** [notices[0]?.id ?? 0] *)
Definition first_id (notices : list Notice) : Z :=
  match notices with
  | [] => 0
  | n :: _ => id n
  end.

(** [notices.filter((notice) => notice.id > stored).reverse()] *)
Definition newNotices (notices : list Notice) (stored : Z) : list Notice :=
  rev (filter (fun notice => id notice >? stored) notices).

(** [notices[0]?.id ?? 0] on a value of another shape: reading index 0 of
    [null] throws; otherwise the [id] found at index 0, or 0. *)
Definition shape_first_id (shape : Shape) : option Z :=
  match shape with
  | ShapeNull => None
  | ShapeNotArray (Some i) => Some i
  | ShapeNotArray None => Some 0
  | ShapeArrayWithNull (Some i :: _) => Some i
  | ShapeArrayWithNull _ => Some 0
  end.

(** [const latestId = notices[0]?.id ?? 0] *)
Definition latest_id (parsed : Parsed) : M Z :=
  match parsed with
  | Notices notices => ret (first_id notices)
  | Other shape =>
      match shape_first_id shape with
      | Some i => ret i
      | None => throw NoticeJsonError
      end
  end.

(** [const newNotices = notices.filter(...).reverse()]: a value that is not
    an array has no [filter], and the callback throws when it reads the [id]
    of a [null] element; the callback has no other effect. *)
Definition new_notices (parsed : Parsed) (stored : Z) : M (list Notice) :=
  match parsed with
  | Notices notices => ret (newNotices notices stored)
  | Other _ => throw NoticeJsonError
  end.

(** The [FormData] built for one notice. *)
Definition notice_form (notice : Notice) : Form :=
  [("content", (title notice ++ LF ++ url notice)%string); ("avatar_url", AVATAR_URL)].

Definition text_response (code : Z) (text : string) : Response :=
  mkResponse code (BodyText text) [].

Definition bad_request : Response :=
  text_response 400 "Bad Request: Missing `webhook` parameter".

Definition not_found : Response :=
  text_response 404 "Not Found: Webhook not found".

Definition method_not_allowed : Response :=
  mkResponse 405 (BodyText "Method Not Allowed") [("Allow", "GET")].

Definition internal_error : Response :=
  text_response 500 "Internal Server Error".

(** [OPTIONS /api/webhook], lines 35-43. *)
Definition webhook_options : M Response :=
  ret (mkResponse 200 (BodyText "")
         [("Access-Control-Allow-Origin", "*");
          ("Access-Control-Allow-Methods", "GET,POST,DELETE,OPTIONS");
          ("Access-Control-Allow-Headers", "Content-Type");
          ("Access-Control-Max-Age", "86400")]).

(** [GET /api/webhook], lines 44-63. *)
Definition webhook_get (env : Env) (request : Request) : M Response :=
  let hook := params_get "webhook" (searchParams request) in
  match hook with
  | Some k =>
      if truthy hook then
        info <- db_select_get env k ;;
        match info with
        | None => ret not_found
        | Some row =>
            ret (mkResponse 200 (BodyJson row) [("Access-Control-Allow-Origin", "*")])
        end
      else ret bad_request
  | None => ret bad_request
  end.

(** [POST /api/webhook], lines 64-107. *)
Definition webhook_post (env : Env) (request : Request) : M Response :=
  let hook := params_get "webhook" (searchParams request) in
  match hook with
  | Some k =>
      if truthy hook then
        payload <- request_json request ;;
        let params :=
          append_if "search" (p_search payload)
            (append_if "department" (p_department payload)
               (append_if "category" (p_category payload) [])) in
        notices <- notice_worker_fetch_json env
                     (API_URL ++ "/api/notices?" ++ params_toString params)%string ;;
        latest <- latest_id notices ;;
        let newRecord := mkDiscordBot k latest (params_toString params) in
        try_catch
          (info <- db_select_get env k ;;
           match info with
           | Some _ => ret (text_response 409 "Conflict: Duplicate entry for unique field")
           | None =>
               db_insert env newRecord ;;;
               ret (text_response 201 "Webhook registered successfully")
           end)
          (ret internal_error)
      else ret bad_request
  | None => ret bad_request
  end.

(** [DELETE /api/webhook], lines 108-132. *)
Definition webhook_delete (env : Env) (request : Request) : M Response :=
  let hook := params_get "webhook" (searchParams request) in
  match hook with
  | Some k =>
      if truthy hook then
        try_catch
          (rows_read <- db_delete env k ;;
           if rows_read =? 0 then ret not_found
           else ret (text_response 200 "Webhook deleted successfully"))
          (ret internal_error)
      else ret bad_request
  | None => ret bad_request
  end.

(** [POST /api/webhook/refresh], lines 151-190. *)
Definition webhook_refresh (env : Env) (request : Request) : M Response :=
  let hook := params_get "webhook" (searchParams request) in
  match hook with
  | Some k =>
      if truthy hook then
        info <- db_select_get env k ;;
        match info with
        | None => ret not_found
        | Some info =>
            notices <- notice_worker_fetch_json env
                         ("/api/notices?" ++ queryParams info)%string ;;
            latest <- latest_id notices ;;
            (if latest >? latestId info
             then db_update_latestId env k latest
             else ret tt) ;;;
            newer <- new_notices notices (latestId info) ;;
            for_of newer
              (fun notice => fetch_post env k (notice_form notice)) ;;;
            ret (text_response 200 "Success")
        end
      else ret bad_request
  | None => ret bad_request
  end.

(** The [fetch] handler, lines 30-196. *)
Definition fetch (env : Env) (request : Request) : M Response :=
  if (pathname request =? "/api/webhook")%string then
    if (method request =? "OPTIONS")%string then webhook_options
    else if (method request =? "GET")%string then webhook_get env request
    else if (method request =? "POST")%string then webhook_post env request
    else if (method request =? "DELETE")%string then webhook_delete env request
    else ret method_not_allowed
  else if (pathname request =? "/api/webhook/refresh")%string then
    if negb (method request =? "POST")%string then ret method_not_allowed
    else webhook_refresh env request
  else ret (text_response 404 "Call /api/webhook").

(** The body of the sweep's loop for one row, lines 204-225. *)
Definition scheduled_body (env : Env) (bot : DiscordBot) : M unit :=
  notices <- notice_worker_fetch_json env
               ("https://ajou-notice.asitis.workers.dev/api/notices?" ++ queryParams bot)%string ;;
  latest <- latest_id notices ;;
  (if latest >? latestId bot
   then db_update_latestId env (webhook bot) latest
   else ret tt) ;;;
  newer <- new_notices notices (latestId bot) ;;
  for_of newer
    (fun notice => fetch_post env (webhook bot) (notice_form notice)).

(** The [scheduled] handler, lines 198-227. *)
Definition scheduled (env : Env) : M unit :=
  bots <- db_select_all env ;;
  for_of bots (scheduled_body env).

(** ** Requests and environments used in the statements *)

(** [request] is [POST /api/webhook/refresh?webhook=k] with a non-empty [k]. *)
Definition is_refresh (request : Request) (k : string) : Prop :=
  pathname request = "/api/webhook/refresh" /\ method request = "POST" /\
  params_get "webhook" (searchParams request) = Some k /\ k <> "".

(** [request] is [POST /api/webhook?webhook=k] with a non-empty [k] and a
    body that parses to [payload]. *)
Definition is_create (request : Request) (k : string) (payload : Payload) : Prop :=
  pathname request = "/api/webhook" /\ method request = "POST" /\
  params_get "webhook" (searchParams request) = Some k /\ k <> "" /\
  json_body request = Some payload.

(** The query string [POST /api/webhook] derives from a payload. *)
Definition payload_query (payload : Payload) : string :=
  params_toString
    (append_if "search" (p_search payload)
       (append_if "department" (p_department payload)
          (append_if "category" (p_category payload) []))).

Definition refresh_target (info : DiscordBot) : string :=
  ("/api/notices?" ++ queryParams info)%string.

Definition scheduled_target (bot : DiscordBot) : string :=
  ("https://ajou-notice.asitis.workers.dev/api/notices?" ++ queryParams bot)%string.

(** The stored watermark of webhook [k], when it is registered. *)
Definition watermark (t : list DiscordBot) (k : string) : option Z :=
  option_map latestId (find (has_key k) t).

(** Every D1 statement succeeds. *)
Definition d1_available (env : Env) : Prop := forall h, DB env h = true.

(** No POST to a webhook is rejected (whatever status it resolves with). *)
Definition endpoint_reachable (env : Env) : Prop :=
  forall h, global_fetch env h <> PostRejected.

(** The feed is newest-first: ids strictly decrease along the list. *)
Definition newest_first (notices : list Notice) : Prop :=
  StronglySorted (fun a b => id b < id a) notices.

(** Oldest-to-newest: ids strictly increase along the list. *)
Definition oldest_first (notices : list Notice) : Prop :=
  StronglySorted (fun a b => id a < id b) notices.

(** The POST events of a list of notices sent to [k], in order. *)
Definition posts (k : string) (l : list Notice) : list Event :=
  map (fun notice => WebhookPost k (notice_form notice)) l.

(** The update event of a sync, present when the fetched first id exceeds
    the stored one. *)
Definition update_event (k : string) (stored : Z) (notices : list Notice) : list Event :=
  if first_id notices >? stored then [DbUpdate k (first_id notices)] else [].

(** The table after the update of a sync. *)
Definition updated_table (k : string) (stored : Z) (notices : list Notice)
    (t : list DiscordBot) : list DiscordBot :=
  if first_id notices >? stored then map (set_latestId k (first_id notices)) t else t.

(** The shape shared by lines 169-186 of [fetch] and lines 208-225 of
    [scheduled] once the list is fetched; [fetch_is_refresh] and
    [scheduled_body_is_sync] show that both handlers have it. *)
Definition sync_tail (env : Env) (k : string) (stored : Z) (notices : list Notice) : M unit :=
  (if first_id notices >? stored
   then db_update_latestId env k (first_id notices)
   else ret tt) ;;;
  for_of (newNotices notices stored)
    (fun notice => fetch_post env k (notice_form notice)).

(** The same for any parsed value: when it is a [Notice[]] this is
    [sync_tail]. *)
Definition sync_parsed (env : Env) (k : string) (stored : Z) (parsed : Parsed) : M unit :=
  latest <- latest_id parsed ;;
  (if latest >? stored
   then db_update_latestId env k latest
   else ret tt) ;;;
  newer <- new_notices parsed stored ;;
  for_of newer (fun notice => fetch_post env k (notice_form notice)).

(** [n] refreshes of the same request, one after the other. *)
Fixpoint refresh_times (env : Env) (request : Request) (n : nat) : M unit :=
  match n with
  | O => ret tt
  | S m => fetch env request ;;; refresh_times env request m
  end.

(** The exception a failed notice fetch raises: a rejected call, or a body
    that [response.json()] cannot parse. *)
Definition feed_failure (r : FeedResult) : option Exn :=
  match r with
  | FeedRejected => Some NoticeWorkerError
  | FeedNotJson => Some NoticeJsonError
  | Feed _ => None
  | FeedOther _ => None
  end.

(** The update a sync writes for a parsed value of another shape: the [id]
    read at index 0, when there is one and it exceeds the stored watermark. *)
Definition shape_event (k : string) (stored : Z) (shape : Shape) : list Event :=
  match shape_first_id shape with
  | Some v => if v >? stored then [DbUpdate k v] else []
  | None => []
  end.

(** The table after that update. *)
Definition shape_table (k : string) (stored : Z) (shape : Shape)
    (t : list DiscordBot) : list DiscordBot :=
  match shape_first_id shape with
  | Some v => if v >? stored then map (set_latestId k v) t else t
  | None => t
  end.

(** The events of one refresh of [info] before the tail runs. *)
Definition refresh_prelude (k : string) (info : DiscordBot) : list Event :=
  [DbSelect k; NoticeFetch (refresh_target info)].

(** The status a handler answered with, if it answered. *)
Definition status_of (o : Outcome Response) : option Z :=
  match o with
  | Returned r => Some (status r)
  | Threw _ => None
  end.

(** Two requests handled one after the other: both statuses and the final
    world. *)
Definition two_requests (env : Env) (first second : Request) (w : World)
  : option Z * option Z * World :=
  let (o1, w1) := fetch env first w in
  let (o2, w2) := fetch env second w1 in
  (status_of o1, status_of o2, w2).

(** The notice fetch of [POST /api/webhook] for a payload. *)
Definition create_target (payload : Payload) : string :=
  (API_URL ++ "/api/notices?" ++ payload_query payload)%string.

(** The rows of [t'] are those of [t], in the same order, each with a
    watermark at least as large. *)
Definition advances (t t' : list DiscordBot) : Prop :=
  Forall2 (fun r r' => webhook r = webhook r' /\ latestId r <= latestId r') t t'.

(** No stored watermark is smaller in [t'] than in [t]. *)
Definition never_lowered (t t' : list DiscordBot) : Prop :=
  forall k v v', watermark t k = Some v -> watermark t' k = Some v' -> v <= v'.

(** The primary key: no two rows share a webhook. *)
Definition unique_keys (t : list DiscordBot) : Prop := NoDup (map webhook t).

(** The shapes a table can take after one request on table [t]. *)
Inductive table_step (t : list DiscordBot) : list DiscordBot -> Prop :=
| step_same : table_step t t
| step_insert row :
    existsb (has_key (webhook row)) t = false -> table_step t (t ++ [row])
| step_delete k : table_step t (filter (fun r => negb (has_key k r)) t)
| step_update k info v :
    find (has_key k) t = Some info -> latestId info < v ->
    table_step t (map (set_latestId k v) t).

(** [POST /api/webhook] from line 98 on, inside its [try]: what the handler
    still does once its select has found no row. *)
Definition webhook_post_insert (env : Env) (newRecord : DiscordBot) : M Response :=
  try_catch
    (db_insert env newRecord ;;;
     ret (text_response 201 "Webhook registered successfully"))
    (ret internal_error).

(** The answer of the refresh handler for an outcome of the tail. *)
Definition answer_of (o : Outcome unit) : Outcome Response :=
  match o with
  | Returned _ => Returned (text_response 200 "Success")
  | Threw e => Threw e
  end.


(** [request] is [GET /api/webhook?webhook=k] with a non-empty [k]. *)
Definition is_lookup (request : Request) (k : string) : Prop :=
  pathname request = "/api/webhook" /\ method request = "GET" /\
  params_get "webhook" (searchParams request) = Some k /\ k <> "".

(** [request] is [DELETE /api/webhook?webhook=k] with a non-empty [k]. *)
Definition is_delete (request : Request) (k : string) : Prop :=
  pathname request = "/api/webhook" /\ method request = "DELETE" /\
  params_get "webhook" (searchParams request) = Some k /\ k <> "".

(** [request] reaches one of the four handlers that read the [webhook]
    parameter. *)
Definition reads_webhook (request : Request) : Prop :=
  (pathname request = "/api/webhook" /\
   (method request = "GET" \/ method request = "POST" \/ method request = "DELETE")) \/
  (pathname request = "/api/webhook/refresh" /\ method request = "POST").

(** The answer of [GET /api/webhook] for a row. *)
Definition found (row : DiscordBot) : Response :=
  mkResponse 200 (BodyJson row) [("Access-Control-Allow-Origin", "*")].

(** The notice service answers every fetch of target [t] with [feeds t],
    whatever happened before. *)
Definition serves (env : Env) (feeds : string -> list Notice) : Prop :=
  forall h t, NOTICE_WORKER env (h ++ [NoticeFetch t]) = Feed (feeds t).

(** The row of [bot] after the sweep has synced it against [feeds]. *)
Definition sweep_row (feeds : string -> list Notice) (bot : DiscordBot) : DiscordBot :=
  if first_id (feeds (scheduled_target bot)) >? latestId bot
  then mkDiscordBot (webhook bot) (first_id (feeds (scheduled_target bot))) (queryParams bot)
  else bot.

(** The events of the sweep for [bot]: its fetch, its update when due, its
    POSTs. *)
Definition sweep_events (feeds : string -> list Notice) (bot : DiscordBot) : list Event :=
  NoticeFetch (scheduled_target bot)
    :: update_event (webhook bot) (latestId bot) (feeds (scheduled_target bot))
    ++ posts (webhook bot) (newNotices (feeds (scheduled_target bot)) (latestId bot)).

(** The shapes a table can take after one request that names webhook [k]:
    only rows of [k] are added, removed or changed. *)
Inductive named_step (k : string) (t : list DiscordBot) : list DiscordBot -> Prop :=
| named_same : named_step k t t
| named_insert row : webhook row = k -> named_step k t (t ++ [row])
| named_delete : named_step k t (filter (fun r => negb (has_key k r)) t)
| named_update v : named_step k t (map (set_latestId k v) t).










(** A payload whose empty strings are turned into absent fields. *)
Definition without_empty (o : option string) : option string :=
  if truthy o then o else None.

(** ** Concrete data for the examples *)

Module Sample.

Definition notice (i : Z) (t : string) : Notice :=
  mkNotice i "general" "cs" t "" ("https://www.ajou.ac.kr/notice/" ++ t)%string "2024-09-09".

Definition feed : list Notice :=
  [notice 103 "n103"; notice 102 "n102"; notice 101 "n101"; notice 100 "n100"].

Definition hook : string := "https://discord.com/api/webhooks/1/a".
Definition hook2 : string := "https://discord.com/api/webhooks/2/b".

Definition row (w : Z) : DiscordBot := mkDiscordBot hook w "category=general".
Definition row2 (w : Z) : DiscordBot := mkDiscordBot hook2 w "search=exam".
Definition hook3 : string := "https://discord.com/api/webhooks/3/c".
Definition row3 (w : Z) : DiscordBot := mkDiscordBot hook3 w "department=math".

(** Everything works and the feed is always [ns]. *)
Definition env_ok (ns : list Notice) : Env :=
  mkEnv (fun _ => true) (fun _ => Feed ns) (fun _ => PostResolved 204).

(** The notice service rejects every call. *)
Definition env_down : Env :=
  mkEnv (fun _ => true) (fun _ => FeedRejected) (fun _ => PostResolved 204).

(** The notice service answers with a body that is not JSON. *)
Definition env_garbled : Env :=
  mkEnv (fun _ => true) (fun _ => FeedNotJson) (fun _ => PostResolved 204).

Definition is_post (e : Event) : bool :=
  match e with WebhookPost _ _ => true | _ => false end.

(** The feed is [ns]; the [n]-th POST to a webhook (from 1) is rejected. *)
Definition env_post_fails (ns : list Notice) (n : nat) : Env :=
  mkEnv (fun _ => true) (fun _ => Feed ns)
    (fun h => if Nat.eqb (List.length (filter is_post h)) n
              then PostRejected else PostResolved 204).


Definition refresh (k : string) : Request :=
  mkRequest "POST" "/api/webhook/refresh" [("webhook", k)] None.

Definition lookup (k : string) : Request :=
  mkRequest "GET" "/api/webhook" [("webhook", k)] None.

Definition delete (k : string) : Request :=
  mkRequest "DELETE" "/api/webhook" [("webhook", k)] None.

(** Everything works and the notice service answers with a body of another
    shape. *)
Definition env_shape (shape : Shape) : Env :=
  mkEnv (fun _ => true) (fun _ => FeedOther shape) (fun _ => PostResolved 204).

(** D1 refuses every statement. *)
Definition env_d1_down (ns : list Notice) : Env :=
  mkEnv (fun _ => false) (fun _ => Feed ns) (fun _ => PostResolved 204).

(** D1 refuses updates and inserts, and answers the other statements. *)
Definition env_read_only (ns : list Notice) : Env :=
  mkEnv (fun h => match last h DbSelectAll with
                  | DbUpdate _ _ => false
                  | DbInsert _ => false
                  | _ => true
                  end)
    (fun _ => Feed ns) (fun _ => PostResolved 204).

(** One list per target: [feed] for the query of [row], nothing else. *)
Definition feeds (t : string) : list Notice :=
  if (t =? scheduled_target (row 0))%string then feed else [].

(** Everything works and every target is answered with its list. *)
Definition env_feeds : Env :=
  mkEnv (fun _ => true)
    (fun h => match last h DbSelectAll with
              | NoticeFetch t => Feed (feeds t)
              | _ => Feed []
              end)
    (fun _ => PostResolved 204).

Definition create (k : string) (p : Payload) : Request :=
  mkRequest "POST" "/api/webhook" [("webhook", k)] (Some p).

Definition general : Payload := mkPayload (Some "general") None None.

Definition world (t : list DiscordBot) : World := mkWorld t [].

End Sample.

(** ** Running the monad *)

Lemma world_eta w : mkWorld (table w) (trace w ++ []) = w.
Proof. destruct w; simpl. now rewrite app_nil_r. Qed.

Lemma truthy_nonempty k : k <> "" -> truthy (Some k) = true.
Proof. intros H. simpl. apply String.eqb_neq in H. now rewrite H. Qed.

(** ** The delivery loop *)

Section Delivery.

Variable env : Env.
Variable k : string.

(** When no POST is rejected, the loop posts every notice, in order. *)
Lemma deliver_all :
  endpoint_reachable env ->
  forall l w,
    for_of l (fun notice => fetch_post env k (notice_form notice)) w
    = (Returned tt, mkWorld (table w) (trace w ++ posts k l)).
Proof.
  intros Hok l. induction l as [|n l IH]; intros w; simpl.
  - unfold ret. now rewrite world_eta.
  - unfold bind. unfold fetch_post at 1.
    destruct (global_fetch env (trace w ++ [WebhookPost k (notice_form n)])) eqn:E.
    + now apply Hok in E.
    + rewrite IH. simpl. now rewrite <- app_assoc.
Qed.

(** In general the loop posts a prefix of the list, up to and including
    the first rejected POST, and never touches the table. *)
Lemma deliver_prefix :
  forall l w, exists j o,
    (j <= List.length l)%nat /\
    for_of l (fun notice => fetch_post env k (notice_form notice)) w
    = (o, mkWorld (table w) (trace w ++ posts k (firstn j l))) /\
    (o = Returned tt -> j = List.length l) /\
    (forall e, o = Threw e -> e = WebhookFetchError).
Proof.
  induction l as [|n l IH]; intros w; simpl.
  - exists 0%nat, (Returned tt). unfold ret. rewrite world_eta.
    repeat split; auto; discriminate.
  - unfold bind. unfold fetch_post at 1.
    destruct (global_fetch env (trace w ++ [WebhookPost k (notice_form n)])) eqn:E.
    + exists 1%nat, (Threw WebhookFetchError). simpl.
      repeat split; try lia; try discriminate. now intros e [= <-].
    + destruct (IH (mkWorld (table w) (trace w ++ [WebhookPost k (notice_form n)])))
        as (j & o & Hj & Hrun & Hret & Hexn).
      exists (S j), o. simpl in *. rewrite Hrun, <- app_assoc.
      repeat split; auto; lia.
Qed.

End Delivery.

(** ** The tail of a sync *)

Lemma sync_tail_ok env k stored ns w :
  d1_available env -> endpoint_reachable env ->
  sync_tail env k stored ns w =
    (Returned tt,
     mkWorld (updated_table k stored ns (table w))
       (trace w ++ update_event k stored ns ++ posts k (newNotices ns stored))).
Proof.
  intros Hdb Hok. unfold sync_tail, updated_table, update_event, bind.
  destruct (first_id ns >? stored).
  - unfold db_update_latestId. rewrite Hdb, deliver_all by assumption.
    simpl. now rewrite <- app_assoc.
  - unfold ret at 1. now rewrite deliver_all by assumption.
Qed.

(** Whatever the webhook answers, the table is updated first and a prefix
    of the new notices is posted after it. *)
Lemma sync_tail_prefix env k stored ns w :
  d1_available env ->
  exists j o,
    (j <= List.length (newNotices ns stored))%nat /\
    sync_tail env k stored ns w =
      (o, mkWorld (updated_table k stored ns (table w))
            (trace w ++ update_event k stored ns
               ++ posts k (firstn j (newNotices ns stored)))) /\
    (o = Returned tt -> j = List.length (newNotices ns stored)) /\
    (forall e, o = Threw e -> e = WebhookFetchError).
Proof.
  intros Hdb. unfold sync_tail, updated_table, update_event, bind.
  destruct (first_id ns >? stored).
  - unfold db_update_latestId. rewrite Hdb.
    destruct (deliver_prefix env k (newNotices ns stored)
                (mkWorld (map (set_latestId k (first_id ns)) (table w))
                   (trace w ++ [DbUpdate k (first_id ns)])))
      as (j & o & Hj & Hrun & Hret & Hexn).
    exists j, o. rewrite Hrun. simpl. rewrite <- app_assoc. auto.
  - unfold ret at 1.
    destruct (deliver_prefix env k (newNotices ns stored) w)
      as (j & o & Hj & Hrun & Hret & Hexn).
    exists j, o. rewrite Hrun. simpl. auto.
Qed.

(** ** How the handlers reach the tail *)

Lemma bind_assoc {A B C} (m : M A) (f : A -> M B) (g : B -> M C) w :
  bind (bind m f) g w = bind m (fun x => bind (f x) g) w.
Proof. unfold bind. destruct (m w) as [[a|e] w1]; reflexivity. Qed.

Lemma bind_ext {A B} (m : M A) (f g : A -> M B) w :
  (forall a w1, f a w1 = g a w1) -> bind m f w = bind m g w.
Proof. intros H. unfold bind. destruct (m w) as [[a|e] w1]; auto. Qed.

(** On a [Notice[]] reading the first id and filtering cannot throw, and
    what is left is [sync_tail]. *)
Lemma sync_parsed_notices env k stored ns w :
  sync_parsed env k stored (Notices ns) w = sync_tail env k stored ns w.
Proof. reflexivity. Qed.

Lemma sync_parsed_then {B} env k stored parsed (r : B) w :
  (latest <- latest_id parsed ;;
   (if latest >? stored then db_update_latestId env k latest else ret tt) ;;;
   newer <- new_notices parsed stored ;;
   for_of newer (fun notice => fetch_post env k (notice_form notice)) ;;;
   ret r) w
  = (sync_parsed env k stored parsed ;;; ret r) w.
Proof.
  unfold sync_parsed. symmetry. rewrite bind_assoc. apply bind_ext. intros latest w1.
  rewrite bind_assoc. apply bind_ext. intros u w2. now rewrite bind_assoc.
Qed.

(** The notice fetch adds its event and leaves the table. *)
Lemma notice_fetch_world env target w :
  snd (notice_worker_fetch_json env target w)
  = mkWorld (table w) (trace w ++ [NoticeFetch target]).
Proof.
  unfold notice_worker_fetch_json. now destruct (NOTICE_WORKER env _).
Qed.

Lemma notice_fetch_throws env target w e :
  fst (notice_worker_fetch_json env target w) = Threw e ->
  e = NoticeWorkerError \/ e = NoticeJsonError.
Proof.
  unfold notice_worker_fetch_json. destruct (NOTICE_WORKER env _); simpl;
    intros [= <-]; auto.
Qed.

(** Reading the first id returns it or throws, and calls nothing. *)
Lemma latest_id_cases parsed w :
  (exists v, latest_id parsed w = (Returned v, w)) \/
  latest_id parsed w = (Threw NoticeJsonError, w).
Proof.
  destruct parsed as [ns|shape]; simpl; [left; now eexists|].
  destruct (shape_first_id shape); [left; now eexists | now right].
Qed.

(** Case analysis on the first notice fetch of the goal: the parsed value,
    or the exception, in the world after the fetch. *)
Ltac run_notice_fetch parsed :=
  unfold bind at 1;
  match goal with
  | |- context [notice_worker_fetch_json ?env ?t ?w] =>
      let Hw := fresh "Hw" in
      let Hexn := fresh "Hexn" in
      let w1 := fresh "w" in
      let e := fresh "e" in
      pose proof (notice_fetch_world env t w) as Hw;
      pose proof (fun e0 => notice_fetch_throws env t w e0) as Hexn;
      destruct (notice_worker_fetch_json env t w) as [[parsed|e] w1];
      cbn [fst snd] in Hw, Hexn; subst w1;
      [clear Hexn | specialize (Hexn e eq_refl)]
  end.

(** Case analysis on the first reading of the first id in the goal. *)
Ltac run_latest_id v :=
  unfold bind at 1;
  match goal with
  | |- context [latest_id ?parsed ?w] =>
      let H := fresh "H" in
      destruct (latest_id_cases parsed w) as [(v & H)|H]; rewrite H
  end.

(** A sync after its fetch, whatever was parsed and whatever fails: the
    table is kept or one watermark is raised, the only events are updates of
    [k] and POSTs to [k], and it throws only for a D1 failure, a rejected POST
    or a value it cannot read. *)
Lemma sync_parsed_cases env k stored parsed w :
  exists o t' s,
    sync_parsed env k stored parsed w = (o, mkWorld t' (trace w ++ s)) /\
    (t' = table w \/
     exists v, stored < v /\ t' = map (set_latestId k v) (table w)) /\
    (forall ev, In ev s ->
                (exists v, ev = DbUpdate k v) \/ (exists form, ev = WebhookPost k form)) /\
    (forall e, o = Threw e ->
               e = D1Error \/ e = WebhookFetchError \/ e = NoticeJsonError).
Proof.
  assert (Hposts : forall l ev,
             In ev (posts k l) ->
             (exists v, ev = DbUpdate k v) \/ (exists form, ev = WebhookPost k form)).
  { intros l ev Hin. apply in_map_iff in Hin as (n & <- & _). right. now eexists. }
  assert (Hgt : forall v, (v >? stored) = true -> stored < v).
  { intros v E. rewrite Z.gtb_ltb in E. now apply Z.ltb_lt. }
  destruct parsed as [ns|shape].
  - rewrite sync_parsed_notices. unfold sync_tail, bind.
    destruct (first_id ns >? stored) eqn:E.
    + unfold db_update_latestId. destruct (DB env _).
      * match goal with |- context [for_of ?l ?f ?w0] =>
          destruct (deliver_prefix env k l w0) as (j & o & _ & Hrun & _ & Hexn) end.
        rewrite Hrun. cbn [table trace]. rewrite <- app_assoc.
        exists o. do 2 eexists. split; [reflexivity|]. split; [|split].
        -- right. eexists. split; [apply Hgt, E | reflexivity].
        -- intros ev [<-|Hin]; [left; now eexists | now apply Hposts in Hin].
        -- intros e He. right. left. now apply Hexn.
      * do 3 eexists. split; [reflexivity|]. split; [now left|]. split.
        -- intros ev [<-|[]]. left. now eexists.
        -- intros e [= <-]. now left.
    + unfold ret at 1.
      destruct (deliver_prefix env k (newNotices ns stored) w)
        as (j & o & _ & Hrun & _ & Hexn).
      rewrite Hrun. exists o. do 2 eexists. split; [reflexivity|]. split; [now left|].
      split; [apply Hposts|]. intros e He. right. left. now apply Hexn.
  - unfold sync_parsed, latest_id, new_notices, bind.
    destruct (shape_first_id shape) as [i|].
    + unfold ret at 1. destruct (i >? stored) eqn:E.
      * unfold db_update_latestId. destruct (DB env _); unfold throw.
        -- do 3 eexists. split; [reflexivity|]. split; [|split].
           ++ right. eexists. split; [apply Hgt, E | reflexivity].
           ++ intros ev [<-|[]]. left. now eexists.
           ++ intros e [= <-]. auto.
        -- do 3 eexists. split; [reflexivity|]. split; [now left|]. split.
           ++ intros ev [<-|[]]. left. now eexists.
           ++ intros e [= <-]. auto.
      * unfold ret, throw. exists (Threw NoticeJsonError), (table w), [].
        rewrite world_eta. split; [reflexivity|]. split; [now left|].
        split; [contradiction|]. intros e [= <-]. auto.
    + unfold throw. exists (Threw NoticeJsonError), (table w), [].
      rewrite world_eta. split; [reflexivity|]. split; [now left|].
      split; [contradiction|]. intros e [= <-]. auto.
Qed.

Lemma fetch_is_refresh env request k w :
  is_refresh request k ->
  fetch env request w =
    (info <- db_select_get env k ;;
     match info with
     | None => ret not_found
     | Some info =>
         notices <- notice_worker_fetch_json env (refresh_target info) ;;
         sync_parsed env k (latestId info) notices ;;;
         ret (text_response 200 "Success")
     end) w.
Proof.
  intros (Hp & Hm & Hq & Hk). unfold fetch, webhook_refresh.
  rewrite Hp, Hm, Hq, (truthy_nonempty k Hk). cbn [String.eqb Ascii.eqb Bool.eqb negb].
  apply bind_ext. intros [info|] w1; [|reflexivity].
  apply bind_ext. intros parsed w2. apply sync_parsed_then.
Qed.

Lemma scheduled_body_is_sync env bot w :
  scheduled_body env bot w =
    (notices <- notice_worker_fetch_json env (scheduled_target bot) ;;
     sync_parsed env (webhook bot) (latestId bot) notices) w.
Proof. reflexivity. Qed.

(** A refresh of a registered webhook whose list is fetched runs the tail. *)
Lemma refresh_reaches_tail env request k info ns w :
  d1_available env -> is_refresh request k ->
  find (has_key k) (table w) = Some info ->
  NOTICE_WORKER env (trace w ++ refresh_prelude k info) = Feed ns ->
  fetch env request w =
    (sync_tail env k (latestId info) ns ;;; ret (text_response 200 "Success"))
      (mkWorld (table w) (trace w ++ refresh_prelude k info)).
Proof.
  intros Hdb Hreq Hfind Hfeed. rewrite (fetch_is_refresh env request k w Hreq).
  unfold bind at 1, db_select_get. rewrite Hdb, Hfind.
  unfold bind at 1, notice_worker_fetch_json. cbn [table trace].
  rewrite <- app_assoc. cbn [app]. fold (refresh_prelude k info). now rewrite Hfeed.
Qed.

Lemma scheduled_body_reaches_tail env bot ns w :
  NOTICE_WORKER env (trace w ++ [NoticeFetch (scheduled_target bot)]) = Feed ns ->
  scheduled_body env bot w =
    sync_tail env (webhook bot) (latestId bot) ns
      (mkWorld (table w) (trace w ++ [NoticeFetch (scheduled_target bot)])).
Proof.
  intros Hfeed. rewrite scheduled_body_is_sync.
  unfold bind at 1, notice_worker_fetch_json. now rewrite Hfeed.
Qed.

(** ** Lists of notices *)

Section SortedLists.

Context {A : Type} (R : A -> A -> Prop).

Lemma StronglySorted_filter f l :
  StronglySorted R l -> StronglySorted R (filter f l).
Proof.
  induction 1 as [|a l Hl IH Ha]; simpl; [constructor|].
  destruct (f a); auto. constructor; auto.
  rewrite Forall_forall in *. intros x Hx. apply filter_In in Hx. now apply Ha.
Qed.

Lemma StronglySorted_snoc l a :
  StronglySorted R l -> Forall (fun x => R x a) l -> StronglySorted R (l ++ [a]).
Proof.
  induction 1 as [|b l Hl IH Hb]; intros Hall; simpl.
  - repeat constructor.
  - inversion Hall; subst. constructor; auto.
    apply Forall_app. split; auto.
Qed.

Lemma StronglySorted_rev l :
  StronglySorted (fun a b => R b a) l -> StronglySorted R (rev l).
Proof.
  induction 1 as [|a l Hl IH Ha]; simpl; [constructor|].
  apply StronglySorted_snoc; auto.
  rewrite Forall_forall in *. intros x Hx. apply Ha. now apply in_rev.
Qed.

End SortedLists.

Lemma newNotices_In ns stored n :
  In n (newNotices ns stored) <-> In n ns /\ stored < id n.
Proof.
  unfold newNotices. rewrite <- in_rev, filter_In. now rewrite Z.gtb_ltb, Z.ltb_lt.
Qed.

Lemma newest_first_bound ns :
  newest_first ns -> forall n, In n ns -> id n <= first_id ns.
Proof.
  intros Hs n Hn. destruct ns as [|a l]; [contradiction|]. simpl.
  apply StronglySorted_inv in Hs as [_ Ha]. destruct Hn as [<-|Hn]; [lia|].
  rewrite Forall_forall in Ha. specialize (Ha n Hn). lia.
Qed.

Lemma newNotices_oldest_first ns stored :
  newest_first ns -> oldest_first (newNotices ns stored).
Proof.
  intros Hs. unfold oldest_first, newNotices.
  apply StronglySorted_rev. now apply StronglySorted_filter.
Qed.

Lemma oldest_first_NoDup l : oldest_first l -> NoDup l.
Proof.
  induction 1 as [|a l Hl IH Ha]; constructor; auto.
  intros Hin. rewrite Forall_forall in Ha. specialize (Ha a Hin). lia.
Qed.

(** With nothing newer than the stored watermark the delta is empty. *)
Lemma newNotices_nil ns stored :
  newest_first ns -> first_id ns <= stored -> newNotices ns stored = [].
Proof.
  intros Hs Hle. destruct (newNotices ns stored) as [|n l] eqn:E; [reflexivity|].
  assert (Hn : In n (newNotices ns stored)) by (rewrite E; now left).
  apply newNotices_In in Hn as [Hn Hlt].
  pose proof (newest_first_bound ns Hs n Hn). lia.
Qed.

(** ** Rows of the table *)

Lemma has_key_eq k r : has_key k r = true <-> webhook r = k.
Proof. unfold has_key. apply String.eqb_eq. Qed.

Lemma has_key_set k k' v r : has_key k (set_latestId k' v r) = has_key k r.
Proof. unfold set_latestId. now destruct (has_key k' r). Qed.

Lemma find_set_latestId k v t :
  find (has_key k) (map (set_latestId k v) t) =
  option_map (set_latestId k v) (find (has_key k) t).
Proof.
  induction t as [|r t IH]; simpl; [reflexivity|].
  rewrite has_key_set. now destruct (has_key k r).
Qed.

Lemma find_snoc k t row :
  find (has_key k) t = None -> webhook row = k ->
  find (has_key k) (t ++ [row]) = Some row.
Proof.
  intros Hnone Hrow. induction t as [|r t IH]; simpl in *.
  - apply has_key_eq in Hrow. now rewrite Hrow.
  - destruct (has_key k r); [discriminate|auto].
Qed.

Lemma find_none_existsb k t :
  find (has_key k) t = None -> existsb (has_key k) t = false.
Proof.
  induction t as [|r t IH]; simpl; [reflexivity|].
  destruct (has_key k r); [discriminate|auto].
Qed.

Lemma watermark_updated k info ns t :
  find (has_key k) t = Some info ->
  watermark (updated_table k (latestId info) ns t) k
  = Some (Z.max (latestId info) (first_id ns)).
Proof.
  intros Hfind. unfold watermark, updated_table.
  destruct (first_id ns >? latestId info) eqn:E; rewrite Z.gtb_ltb in E.
  - rewrite find_set_latestId, Hfind. simpl. unfold set_latestId.
    apply find_some in Hfind as [_ Hk]. rewrite Hk. simpl.
    apply Z.ltb_lt in E. f_equal. lia.
  - rewrite Hfind. simpl. apply Z.ltb_ge in E. f_equal. lia.
Qed.

(** A sync that finds nothing newer than the stored watermark does nothing
    more: no update, no POST, no error. *)
Lemma sync_tail_silent env k stored ns w :
  newest_first ns -> first_id ns <= stored ->
  sync_tail env k stored ns w = (Returned tt, w).
Proof.
  intros Hs Hle. unfold sync_tail.
  rewrite (newNotices_nil ns stored Hs Hle).
  assert (E : (first_id ns >? stored) = false) by (rewrite Z.gtb_ltb; now apply Z.ltb_ge).
  rewrite E. reflexivity.
Qed.

(** ** Missing parameter *)

(** C8: on [/api/webhook], a GET, POST or DELETE request that carries no
    [webhook] query parameter is answered with status 400 and the world is
    left as it was: no D1 statement, no notice fetch and no POST has been
    issued. *)
Theorem missing_webhook_parameter_400 env request w :
  pathname request = "/api/webhook" ->
  method request = "GET" \/ method request = "POST" \/ method request = "DELETE" ->
  params_get "webhook" (searchParams request) = None ->
  fetch env request w = (Returned bad_request, w) /\ status bad_request = 400.
Proof.
  intros Hp Hm Hq. split; [|reflexivity]. unfold fetch. rewrite Hp.
  destruct Hm as [Hm|[Hm|Hm]]; rewrite Hm; cbn [String.eqb Ascii.eqb Bool.eqb];
    unfold webhook_get, webhook_post, webhook_delete; now rewrite Hq.
Qed.

Lemma missing_webhook_parameter_400_witness :
  let w := Sample.world [Sample.row 100] in
  let env := Sample.env_ok Sample.feed in
  (fetch env (mkRequest "GET" "/api/webhook" [] None) w = (Returned bad_request, w)
   /\ status bad_request = 400) /\
  (fetch env (mkRequest "POST" "/api/webhook" [("hook", "x")] (Some Sample.general)) w
   = (Returned bad_request, w) /\ status bad_request = 400) /\
  (fetch env (mkRequest "DELETE" "/api/webhook" [] None) w = (Returned bad_request, w)
   /\ status bad_request = 400).
Proof.
  repeat apply conj.
  1,2: apply (missing_webhook_parameter_400 (Sample.env_ok Sample.feed)
           (mkRequest "GET" "/api/webhook" [] None) (Sample.world [Sample.row 100]));
       [reflexivity | left; reflexivity | reflexivity].
  1,2: apply (missing_webhook_parameter_400 (Sample.env_ok Sample.feed)
           (mkRequest "POST" "/api/webhook" [("hook", "x")] (Some Sample.general))
           (Sample.world [Sample.row 100]));
       [reflexivity | right; left; reflexivity | reflexivity].
  1,2: apply (missing_webhook_parameter_400 (Sample.env_ok Sample.feed)
           (mkRequest "DELETE" "/api/webhook" [] None) (Sample.world [Sample.row 100]));
       [reflexivity | right; right; reflexivity | reflexivity].
Defined.

(** ** Failure of the notice fetch *)

(** A sync whose parsed value is not a [Notice[]] always throws and never
    posts; before it throws it writes the [id] read at index 0 when that
    exceeds the stored watermark. *)
Lemma sync_parsed_other env k stored shape w :
  d1_available env ->
  sync_parsed env k stored (Other shape) w
  = (Threw NoticeJsonError,
     mkWorld (shape_table k stored shape (table w))
       (trace w ++ shape_event k stored shape)).
Proof.
  intros Hdb. unfold sync_parsed, latest_id, new_notices, shape_table, shape_event, bind.
  destruct (shape_first_id shape) as [v|]; [|unfold throw; now rewrite world_eta].
  unfold ret at 1. destruct (v >? stored).
  - unfold db_update_latestId. now rewrite Hdb.
  - unfold ret, throw. now rewrite world_eta.
Qed.

(** C7, as the claim states it: a malformed response aborts the sync with
    the stored record exactly as before.  Here the body parses but is not a
    list of notices: the object [{"0":{"id":500}}] for the refresh, the array
    [[{"id":500},null]] for the body of the sweep.  Both throw without
    posting, after the watermark 100 has been overwritten with 500. *)
Lemma malformed_feed_can_move_the_watermark :
  let w := Sample.world [Sample.row 100] in
  let r1 := fetch (Sample.env_shape (ShapeNotArray (Some 500)))
              (Sample.refresh Sample.hook) w in
  let r2 := scheduled_body (Sample.env_shape (ShapeArrayWithNull [Some 500]))
              (Sample.row 100) w in
  r1 = (Threw NoticeJsonError,
        mkWorld [Sample.row 500]
          (refresh_prelude Sample.hook (Sample.row 100) ++ [DbUpdate Sample.hook 500])) /\
  r2 = (Threw NoticeJsonError,
        mkWorld [Sample.row 500]
          [NoticeFetch (scheduled_target (Sample.row 100)); DbUpdate Sample.hook 500]) /\
  table (snd r1) <> table w /\ table (snd r2) <> table w.
Proof.
  cbv zeta. split; [reflexivity|]. split; [reflexivity|].
  split; vm_compute; discriminate.
Qed.

(** C7 (amended): when the notice fetch of a sync is rejected, or its body
    is not JSON, or is the JSON value [null], the sync throws at once: the
    table is untouched and the trace holds no update and no POST, only the
    select (for a refresh) and the fetch itself.  A body that parses to
    another value that is not a list of notices (a number, a boolean, a
    string, an object, or an array with a [null] element) is not checked: the
    sync throws without any POST, after it has written the [id] read at index
    0 as the new watermark when that [id] exceeds the stored one, and with the
    table untouched otherwise.  This holds for the refresh handler and for
    the body of the scheduled sweep. *)
Theorem upstream_failure_aborts_sync env w e :
  (forall request k info,
      d1_available env -> is_refresh request k ->
      find (has_key k) (table w) = Some info ->
      feed_failure (NOTICE_WORKER env (trace w ++ refresh_prelude k info)) = Some e ->
      fetch env request w
      = (Threw e, mkWorld (table w) (trace w ++ refresh_prelude k info))) /\
  (forall bot,
      feed_failure (NOTICE_WORKER env (trace w ++ [NoticeFetch (scheduled_target bot)]))
      = Some e ->
      scheduled_body env bot w
      = (Threw e, mkWorld (table w) (trace w ++ [NoticeFetch (scheduled_target bot)]))) /\
  (forall request k info shape,
      d1_available env -> is_refresh request k ->
      find (has_key k) (table w) = Some info ->
      NOTICE_WORKER env (trace w ++ refresh_prelude k info) = FeedOther shape ->
      fetch env request w
      = (Threw NoticeJsonError,
         mkWorld (shape_table k (latestId info) shape (table w))
           (trace w ++ refresh_prelude k info ++ shape_event k (latestId info) shape))) /\
  (forall bot shape,
      d1_available env ->
      NOTICE_WORKER env (trace w ++ [NoticeFetch (scheduled_target bot)]) = FeedOther shape ->
      scheduled_body env bot w
      = (Threw NoticeJsonError,
         mkWorld (shape_table (webhook bot) (latestId bot) shape (table w))
           (trace w ++ [NoticeFetch (scheduled_target bot)]
              ++ shape_event (webhook bot) (latestId bot) shape))) /\
  (forall k stored t,
      shape_event k stored ShapeNull = [] /\ shape_table k stored ShapeNull t = t) /\
  (forall k stored t shape v,
      shape_first_id shape = Some v ->
      (v <= stored ->
       shape_event k stored shape = [] /\ shape_table k stored shape t = t) /\
      (stored < v ->
       shape_event k stored shape = [DbUpdate k v] /\
       shape_table k stored shape t = map (set_latestId k v) t)).
Proof.
  split; [|split; [|split; [|split; [|split]]]].
  - intros request k info Hdb Hreq Hfind Hfail.
    rewrite (fetch_is_refresh env request k w Hreq).
    unfold bind at 1, db_select_get. rewrite Hdb, Hfind.
    unfold bind, notice_worker_fetch_json. cbn [table trace].
    rewrite <- app_assoc. cbn [app]. fold (refresh_prelude k info).
    destruct (NOTICE_WORKER env (trace w ++ refresh_prelude k info));
      simpl in Hfail; congruence.
  - intros bot Hfail. rewrite scheduled_body_is_sync.
    unfold bind, notice_worker_fetch_json.
    destruct (NOTICE_WORKER env (trace w ++ [NoticeFetch (scheduled_target bot)]));
      simpl in Hfail; congruence.
  - intros request k info shape Hdb Hreq Hfind Hfeed.
    rewrite (fetch_is_refresh env request k w Hreq).
    unfold bind at 1, db_select_get. rewrite Hdb, Hfind.
    unfold bind at 1, notice_worker_fetch_json. cbn [table trace].
    rewrite <- app_assoc. cbn [app]. fold (refresh_prelude k info). rewrite Hfeed.
    unfold bind. rewrite (sync_parsed_other env k (latestId info) shape _ Hdb).
    cbn [table trace]. now rewrite <- app_assoc.
  - intros bot shape Hdb Hfeed. rewrite scheduled_body_is_sync.
    unfold bind at 1, notice_worker_fetch_json. rewrite Hfeed.
    rewrite (sync_parsed_other env _ _ shape _ Hdb).
    cbn [table trace]. now rewrite <- app_assoc.
  - intros k stored t. split; reflexivity.
  - intros k stored t shape v Hv. unfold shape_event, shape_table. rewrite Hv. split.
    + intros Hle. assert (E : (v >? stored) = false)
        by (rewrite Z.gtb_ltb; now apply Z.ltb_ge).
      now rewrite E.
    + intros Hlt. assert (E : (v >? stored) = true)
        by (rewrite Z.gtb_ltb; now apply Z.ltb_lt).
      now rewrite E.
Qed.

Lemma upstream_failure_aborts_sync_witness :
  let w := Sample.world [Sample.row 100] in
  fetch Sample.env_down (Sample.refresh Sample.hook) w
  = (Threw NoticeWorkerError,
     mkWorld (table w) (trace w ++ refresh_prelude Sample.hook (Sample.row 100))) /\
  scheduled_body Sample.env_garbled (Sample.row 100) w
  = (Threw NoticeJsonError,
     mkWorld (table w) (trace w ++ [NoticeFetch (scheduled_target (Sample.row 100))])) /\
  fetch (Sample.env_shape ShapeNull) (Sample.refresh Sample.hook) w
  = (Threw NoticeJsonError,
     mkWorld (table w) (trace w ++ refresh_prelude Sample.hook (Sample.row 100))) /\
  scheduled_body (Sample.env_shape (ShapeArrayWithNull [Some 500; None]))
    (Sample.row 100) w
  = (Threw NoticeJsonError,
     mkWorld [Sample.row 500]
       [NoticeFetch (scheduled_target (Sample.row 100)); DbUpdate Sample.hook 500]).
Proof.
  split; [|split; [|split]].
  - apply (proj1 (upstream_failure_aborts_sync Sample.env_down
                    (Sample.world [Sample.row 100]) NoticeWorkerError)).
    + intros h. reflexivity.
    + repeat split. discriminate.
    + reflexivity.
    + reflexivity.
  - apply (proj1 (proj2 (upstream_failure_aborts_sync Sample.env_garbled
                           (Sample.world [Sample.row 100]) NoticeJsonError))).
    reflexivity.
  - apply (proj1 (proj2 (proj2 (upstream_failure_aborts_sync (Sample.env_shape ShapeNull)
                                  (Sample.world [Sample.row 100]) NoticeJsonError)))
             (Sample.refresh Sample.hook) Sample.hook (Sample.row 100) ShapeNull).
    + intros h. reflexivity.
    + repeat split. discriminate.
    + reflexivity.
    + reflexivity.
  - apply (proj1 (proj2 (proj2 (proj2 (upstream_failure_aborts_sync
                                         (Sample.env_shape
                                            (ShapeArrayWithNull [Some 500; None]))
                                         (Sample.world [Sample.row 100])
                                         NoticeJsonError))))
             (Sample.row 100) (ShapeArrayWithNull [Some 500; None])).
    + intros h. reflexivity.
    + reflexivity.
Defined.

(** ** A sync with nothing new *)

(** C5: when the first id of the fetched newest-first list (0 for an empty
    list) does not exceed the stored watermark, a sync (refresh handler or
    body of the sweep) completes, 200 for the handler, without any update of
    the table and without any POST; and any number of refreshes in a row,
    each fetching such a list, leave the table as it was and add nothing to
    the trace but their selects and fetches. *)
Theorem sync_without_news_is_silent env request k info w :
  d1_available env -> is_refresh request k ->
  find (has_key k) (table w) = Some info ->
  (forall ns,
      NOTICE_WORKER env (trace w ++ refresh_prelude k info) = Feed ns ->
      newest_first ns -> first_id ns <= latestId info ->
      fetch env request w
      = (Returned (text_response 200 "Success"),
         mkWorld (table w) (trace w ++ refresh_prelude k info))) /\
  (forall ns,
      NOTICE_WORKER env (trace w ++ [NoticeFetch (scheduled_target info)]) = Feed ns ->
      newest_first ns -> first_id ns <= latestId info ->
      scheduled_body env info w
      = (Returned tt,
         mkWorld (table w) (trace w ++ [NoticeFetch (scheduled_target info)]))) /\
  ((forall h, exists ns,
       NOTICE_WORKER env h = Feed ns /\ newest_first ns /\ first_id ns <= latestId info) ->
   forall n,
     refresh_times env request n w
     = (Returned tt,
        mkWorld (table w) (trace w ++ List.concat (repeat (refresh_prelude k info) n)))).
Proof.
  intros Hdb Hreq Hfind.
  assert (Hone : forall w0 ns,
             find (has_key k) (table w0) = Some info ->
             NOTICE_WORKER env (trace w0 ++ refresh_prelude k info) = Feed ns ->
             newest_first ns -> first_id ns <= latestId info ->
             fetch env request w0
             = (Returned (text_response 200 "Success"),
                mkWorld (table w0) (trace w0 ++ refresh_prelude k info))).
  { intros w0 ns Hf Hfeed Hs Hle.
    rewrite (refresh_reaches_tail env request k info ns w0 Hdb Hreq Hf Hfeed).
    unfold bind. now rewrite (sync_tail_silent env k (latestId info) ns _ Hs Hle). }
  split; [intros ns; now apply Hone|]. split.
  { intros ns Hfeed Hs Hle. rewrite (scheduled_body_reaches_tail env info ns w Hfeed).
    now apply sync_tail_silent. }
  intros Hquiet n. revert w Hfind. induction n as [|n IH]; intros w Hfind.
  - simpl. unfold ret. now rewrite world_eta.
  - cbn [refresh_times repeat List.concat].
    destruct (Hquiet (trace w ++ refresh_prelude k info)) as (ns & Hfeed & Hs & Hle).
    unfold bind. rewrite (Hone w ns Hfind Hfeed Hs Hle).
    rewrite IH by exact Hfind. cbn [table trace]. now rewrite <- app_assoc.
Qed.

Lemma sync_without_news_is_silent_witness :
  let w := Sample.world [Sample.row 103] in
  let env := Sample.env_ok Sample.feed in
  fetch env (Sample.refresh Sample.hook) w
  = (Returned (text_response 200 "Success"),
     mkWorld (table w) (trace w ++ refresh_prelude Sample.hook (Sample.row 103))) /\
  scheduled_body env (Sample.row 103) w
  = (Returned tt,
     mkWorld (table w) (trace w ++ [NoticeFetch (scheduled_target (Sample.row 103))])) /\
  refresh_times env (Sample.refresh Sample.hook) 3 w
  = (Returned tt,
     mkWorld (table w)
       (trace w ++ List.concat (repeat (refresh_prelude Sample.hook (Sample.row 103)) 3))).
Proof.
  assert (Hs : newest_first Sample.feed).
  { repeat constructor; simpl; lia. }
  destruct (sync_without_news_is_silent (Sample.env_ok Sample.feed)
              (Sample.refresh Sample.hook) Sample.hook (Sample.row 103)
              (Sample.world [Sample.row 103])) as (Hone & Hbody & Hmany).
  - intros h. reflexivity.
  - repeat split. discriminate.
  - reflexivity.
  - split; [|split].
    + apply (Hone Sample.feed); [reflexivity | exact Hs | simpl; lia].
    + apply (Hbody Sample.feed); [reflexivity | exact Hs | simpl; lia].
    + apply Hmany. intros h. exists Sample.feed.
      split; [reflexivity | split; [exact Hs | simpl; lia]].
Defined.

(** ** Delivery of the gap *)

(** C1, as the claim states its last clause: after a sync the stored
    watermark is the first id of the fetched list.  With the list [[40]] and
    the stored watermark 50 the refresh leaves 50 in the table. *)
Lemma watermark_is_not_always_newest_id :
  let ns := [Sample.notice 40 "n40"] in
  let w' := snd (fetch (Sample.env_ok ns) (Sample.refresh Sample.hook)
                   (Sample.world [Sample.row 50])) in
  newest_first ns /\
  watermark (table w') Sample.hook = Some 50 /\
  watermark (table w') Sample.hook <> Some (first_id ns).
Proof.
  cbv zeta. split; [repeat constructor|]. split; [reflexivity|].
  vm_compute. discriminate.
Qed.

(** C1 (amended): in a sync (refresh handler or body of the sweep) whose D1
    statements succeed, whose fetch returns a newest-first list and whose
    POSTs are not rejected, the notices posted to the endpoint are exactly
    those of the list with an id above the stored watermark W, one POST
    each, by ascending id, after the update of the table; and afterwards the
    stored watermark is the larger of W and the first id of the list (0 for
    an empty list). *)
Theorem sync_delivers_gap env k stored ns :
  d1_available env -> endpoint_reachable env -> newest_first ns ->
  let delta := newNotices ns stored in
  let events := update_event k stored ns ++ posts k delta in
  (forall n, In n delta <-> In n ns /\ stored < id n) /\
  oldest_first delta /\
  NoDup delta /\
  (forall request info w,
      is_refresh request k ->
      find (has_key k) (table w) = Some info -> latestId info = stored ->
      NOTICE_WORKER env (trace w ++ refresh_prelude k info) = Feed ns ->
      exists w',
        fetch env request w = (Returned (text_response 200 "Success"), w') /\
        trace w' = trace w ++ refresh_prelude k info ++ events /\
        watermark (table w') k = Some (Z.max stored (first_id ns))) /\
  (forall bot w,
      webhook bot = k ->
      find (has_key k) (table w) = Some bot -> latestId bot = stored ->
      NOTICE_WORKER env (trace w ++ [NoticeFetch (scheduled_target bot)]) = Feed ns ->
      exists w',
        scheduled_body env bot w = (Returned tt, w') /\
        trace w' = trace w ++ [NoticeFetch (scheduled_target bot)] ++ events /\
        watermark (table w') k = Some (Z.max stored (first_id ns))).
Proof.
  intros Hdb Hok Hs delta events.
  split; [intros n; apply newNotices_In|].
  split; [now apply newNotices_oldest_first|].
  split; [now apply oldest_first_NoDup, newNotices_oldest_first|].
  split.
  - intros request info w Hreq Hfind <- Hfeed. eexists. split.
    + rewrite (refresh_reaches_tail env request k info ns w Hdb Hreq Hfind Hfeed).
      unfold bind. rewrite sync_tail_ok by assumption. reflexivity.
    + cbn [table trace]. split; [now rewrite <- app_assoc|].
      now apply watermark_updated.
  - intros bot w <- Hfind <- Hfeed. eexists. split.
    + rewrite (scheduled_body_reaches_tail env bot ns w Hfeed).
      rewrite sync_tail_ok by assumption. reflexivity.
    + cbn [table trace]. split; [now rewrite <- app_assoc|].
      now apply watermark_updated.
Qed.

Lemma sync_delivers_gap_witness :
  let env := Sample.env_ok Sample.feed in
  let events :=
    [DbUpdate Sample.hook 103]
      ++ posts Sample.hook
           [Sample.notice 101 "n101"; Sample.notice 102 "n102"; Sample.notice 103 "n103"] in
  (exists w',
      fetch env (Sample.refresh Sample.hook) (Sample.world [Sample.row 100])
      = (Returned (text_response 200 "Success"), w') /\
      trace w' = refresh_prelude Sample.hook (Sample.row 100) ++ events /\
      watermark (table w') Sample.hook = Some 103) /\
  (exists w',
      scheduled_body env (Sample.row 100) (Sample.world [Sample.row 100])
      = (Returned tt, w') /\
      trace w' = [NoticeFetch (scheduled_target (Sample.row 100))] ++ events /\
      watermark (table w') Sample.hook = Some 103).
Proof.
  destruct (sync_delivers_gap (Sample.env_ok Sample.feed) Sample.hook 100 Sample.feed)
    as (_ & _ & _ & Hrefresh & Hsweep).
  - intros h. reflexivity.
  - intros h. discriminate.
  - repeat constructor; simpl; lia.
  - split.
    + apply (Hrefresh (Sample.refresh Sample.hook) (Sample.row 100)
               (Sample.world [Sample.row 100])).
      * repeat split. discriminate.
      * reflexivity.
      * reflexivity.
      * reflexivity.
    + apply (Hsweep (Sample.row 100) (Sample.world [Sample.row 100]));
        reflexivity.
Defined.

(** ** Registration *)

(** C3: a POST on [/api/webhook] for a webhook that is not yet registered,
    with D1 available and the notice list fetched, answers 201 and appends a
    row whose watermark is the id of the first notice of that list, or 0 for
    an empty list.  A sync run next on that world (the refresh handler or
    the body of the sweep) that fetches the same newest-first list posts
    nothing and leaves the table as it is. *)
Theorem create_starts_at_newest_id env request k payload ns w :
  d1_available env -> is_create request k payload ->
  find (has_key k) (table w) = None ->
  NOTICE_WORKER env (trace w ++ [NoticeFetch (create_target payload)]) = Feed ns ->
  let newRecord := mkDiscordBot k (first_id ns) (payload_query payload) in
  let w1 := mkWorld (table w ++ [newRecord])
              (trace w ++ [NoticeFetch (create_target payload);
                           DbSelect k; DbInsert newRecord]) in
  fetch env request w
  = (Returned (text_response 201 "Webhook registered successfully"), w1) /\
  watermark (table w1) k = Some (first_id ns) /\
  (newest_first ns ->
   (forall env' request',
       d1_available env' -> is_refresh request' k ->
       NOTICE_WORKER env' (trace w1 ++ refresh_prelude k newRecord) = Feed ns ->
       fetch env' request' w1
       = (Returned (text_response 200 "Success"),
          mkWorld (table w1) (trace w1 ++ refresh_prelude k newRecord))) /\
   (forall env',
       NOTICE_WORKER env' (trace w1 ++ [NoticeFetch (scheduled_target newRecord)]) = Feed ns ->
       scheduled_body env' newRecord w1
       = (Returned tt,
          mkWorld (table w1) (trace w1 ++ [NoticeFetch (scheduled_target newRecord)])))).
Proof.
  intros Hdb (Hp & Hm & Hq & Hk & Hbody) Hfind Hfeed newRecord w1.
  assert (Hrow : find (has_key k) (table w1) = Some newRecord).
  { apply find_snoc; [exact Hfind | reflexivity]. }
  split; [|split].
  - unfold fetch, webhook_post. rewrite Hp, Hm, Hq, (truthy_nonempty k Hk).
    cbn [String.eqb Ascii.eqb Bool.eqb].
    unfold request_json. rewrite Hbody. unfold bind at 1, ret at 1.
    fold (payload_query payload). fold (create_target payload).
    unfold bind at 1, notice_worker_fetch_json. rewrite Hfeed.
    cbn [latest_id]. unfold bind at 1, ret at 1.
    unfold try_catch, bind, db_select_get, db_insert. cbn [table trace].
    rewrite !Hdb, Hfind. cbn [table trace webhook].
    rewrite ?Hdb, (find_none_existsb k _ Hfind). cbn [negb andb].
    unfold ret, w1, newRecord. now rewrite <- !app_assoc.
  - unfold watermark. now rewrite Hrow.
  - intros Hs. split.
    + intros env' request' Hdb' Hreq' Hfeed'.
      rewrite (refresh_reaches_tail env' request' k newRecord ns w1 Hdb' Hreq' Hrow Hfeed').
      unfold bind. rewrite sync_tail_silent; [reflexivity | exact Hs | simpl; lia].
    + intros env' Hfeed'.
      rewrite (scheduled_body_reaches_tail env' newRecord ns w1 Hfeed').
      rewrite sync_tail_silent; [reflexivity | exact Hs | simpl; lia].
Qed.

Lemma create_starts_at_newest_id_witness :
  let env := Sample.env_ok Sample.feed in
  let newRecord := mkDiscordBot Sample.hook 103 "category=general" in
  let w1 := mkWorld [newRecord]
              [NoticeFetch "https://ajou-notice.asitis.workers.dev/api/notices?category=general";
               DbSelect Sample.hook; DbInsert newRecord] in
  fetch env (Sample.create Sample.hook Sample.general) (Sample.world [])
  = (Returned (text_response 201 "Webhook registered successfully"), w1) /\
  watermark (table w1) Sample.hook = Some 103 /\
  fetch env (Sample.refresh Sample.hook) w1
  = (Returned (text_response 200 "Success"),
     mkWorld (table w1) (trace w1 ++ refresh_prelude Sample.hook newRecord)).
Proof.
  destruct (create_starts_at_newest_id (Sample.env_ok Sample.feed)
              (Sample.create Sample.hook Sample.general) Sample.hook Sample.general
              Sample.feed (Sample.world []))
    as (Hrun & Hmark & Hnext).
  - intros h. reflexivity.
  - repeat split. discriminate.
  - reflexivity.
  - reflexivity.
  - split; [exact Hrun|]. split; [exact Hmark|].
    apply Hnext.
    + repeat constructor; simpl; lia.
    + intros h. reflexivity.
    + repeat split. discriminate.
    + reflexivity.
Defined.

(** ** The update comes before the POSTs *)

(** A refresh of a registered webhook whose list is fetched: the table is
    updated, then a prefix of the new notices is posted; the handler answers
    200 when the whole of it was posted and throws at the first rejected
    POST. *)
Lemma refresh_prefix env request k info ns w :
  d1_available env -> is_refresh request k ->
  find (has_key k) (table w) = Some info ->
  NOTICE_WORKER env (trace w ++ refresh_prelude k info) = Feed ns ->
  exists j o,
    (j <= List.length (newNotices ns (latestId info)))%nat /\
    fetch env request w
    = (o, mkWorld (updated_table k (latestId info) ns (table w))
            (trace w ++ refresh_prelude k info ++ update_event k (latestId info) ns
               ++ posts k (firstn j (newNotices ns (latestId info))))) /\
    (forall r, o = Returned r ->
               r = text_response 200 "Success" /\
               j = List.length (newNotices ns (latestId info))) /\
    (forall e, o = Threw e -> e = WebhookFetchError).
Proof.
  intros Hdb Hreq Hfind Hfeed.
  rewrite (refresh_reaches_tail env request k info ns w Hdb Hreq Hfind Hfeed).
  destruct (sync_tail_prefix env k (latestId info) ns
              (mkWorld (table w) (trace w ++ refresh_prelude k info)) Hdb)
    as (j & o & Hj & Hrun & Hret & Hexn).
  unfold bind. rewrite Hrun. cbn [table trace]. rewrite <- app_assoc.
  destruct o as [[]|e].
  - exists j, (Returned (text_response 200 "Success")).
    repeat split; auto; try congruence; discriminate.
  - exists j, (Threw e). repeat split; auto; try discriminate.
    intros e' [= <-]. now apply Hexn.
Qed.

(** Every notice a sync posts has an id above the stored watermark. *)
Lemma posted_above_watermark ns stored j m :
  In m (firstn j (newNotices ns stored)) -> stored < id m.
Proof.
  intros Hm. apply (newNotices_In ns stored m).
  rewrite <- (firstn_skipn j (newNotices ns stored)). apply in_or_app. now left.
Qed.

(** The same for the body of the sweep. *)
Lemma scheduled_body_prefix env bot ns w :
  d1_available env ->
  NOTICE_WORKER env (trace w ++ [NoticeFetch (scheduled_target bot)]) = Feed ns ->
  exists j o,
    (j <= List.length (newNotices ns (latestId bot)))%nat /\
    scheduled_body env bot w
    = (o, mkWorld (updated_table (webhook bot) (latestId bot) ns (table w))
            (trace w ++ [NoticeFetch (scheduled_target bot)]
               ++ update_event (webhook bot) (latestId bot) ns
               ++ posts (webhook bot) (firstn j (newNotices ns (latestId bot))))) /\
    (o = Returned tt -> j = List.length (newNotices ns (latestId bot))) /\
    (forall e, o = Threw e -> e = WebhookFetchError).
Proof.
  intros Hdb Hfeed. rewrite (scheduled_body_reaches_tail env bot ns w Hfeed).
  destruct (sync_tail_prefix env (webhook bot) (latestId bot) ns
              (mkWorld (table w) (trace w ++ [NoticeFetch (scheduled_target bot)])) Hdb)
    as (j & o & Hj & Hrun & Hret & Hexn).
  exists j, o. rewrite Hrun. cbn [table trace]. rewrite <- app_assoc. auto.
Qed.

(** C2: in a sync (refresh handler or body of the sweep) whose fetched
    first id exceeds the stored watermark, the update of the table is issued
    before every POST to the endpoint, and the stored watermark is that first
    id whether or not a POST is then rejected.  Hence, the list being
    newest-first, a later sync of the same webhook (in any world where its
    watermark is at least that id) posts only notices whose id is above every
    id of this list: a notice whose POST was rejected is not posted again. *)
Theorem watermark_advances_before_dispatch env k stored ns :
  d1_available env -> stored < first_id ns ->
  let delta := newNotices ns stored in
  (forall request info w,
      is_refresh request k ->
      find (has_key k) (table w) = Some info -> latestId info = stored ->
      NOTICE_WORKER env (trace w ++ refresh_prelude k info) = Feed ns ->
      exists j o w',
        fetch env request w = (o, w') /\
        (j <= List.length delta)%nat /\
        trace w' = trace w ++ refresh_prelude k info ++ [DbUpdate k (first_id ns)]
                     ++ posts k (firstn j delta) /\
        watermark (table w') k = Some (first_id ns) /\
        (forall r, o = Returned r -> j = List.length delta) /\
        (forall e, o = Threw e -> e = WebhookFetchError)) /\
  (forall bot w,
      webhook bot = k ->
      find (has_key k) (table w) = Some bot -> latestId bot = stored ->
      NOTICE_WORKER env (trace w ++ [NoticeFetch (scheduled_target bot)]) = Feed ns ->
      exists j o w',
        scheduled_body env bot w = (o, w') /\
        (j <= List.length delta)%nat /\
        trace w' = trace w ++ [NoticeFetch (scheduled_target bot)]
                     ++ [DbUpdate k (first_id ns)] ++ posts k (firstn j delta) /\
        watermark (table w') k = Some (first_id ns) /\
        (o = Returned tt -> j = List.length delta) /\
        (forall e, o = Threw e -> e = WebhookFetchError)) /\
  (newest_first ns ->
   (forall env2 request2 info2 ns2 w2,
       d1_available env2 -> is_refresh request2 k ->
       find (has_key k) (table w2) = Some info2 -> first_id ns <= latestId info2 ->
       NOTICE_WORKER env2 (trace w2 ++ refresh_prelude k info2) = Feed ns2 ->
       exists j2 o2 w3,
         fetch env2 request2 w2 = (o2, w3) /\
         trace w3 = trace w2 ++ refresh_prelude k info2
                      ++ update_event k (latestId info2) ns2
                      ++ posts k (firstn j2 (newNotices ns2 (latestId info2))) /\
         forall m n, In m (firstn j2 (newNotices ns2 (latestId info2))) ->
                     In n ns -> id n < id m) /\
   (forall env2 bot ns2 w2,
       d1_available env2 -> webhook bot = k -> first_id ns <= latestId bot ->
       NOTICE_WORKER env2 (trace w2 ++ [NoticeFetch (scheduled_target bot)]) = Feed ns2 ->
       exists j2 o2 w3,
         scheduled_body env2 bot w2 = (o2, w3) /\
         trace w3 = trace w2 ++ [NoticeFetch (scheduled_target bot)]
                      ++ update_event k (latestId bot) ns2
                      ++ posts k (firstn j2 (newNotices ns2 (latestId bot))) /\
         forall m n, In m (firstn j2 (newNotices ns2 (latestId bot))) ->
                     In n ns -> id n < id m)).
Proof.
  intros Hdb Hnew delta.
  assert (Hgt : (first_id ns >? stored) = true)
    by (rewrite Z.gtb_ltb; now apply Z.ltb_lt).
  assert (Hev : update_event k stored ns = [DbUpdate k (first_id ns)])
    by (unfold update_event; now rewrite Hgt).
  split; [|split].
  - intros request info w Hreq Hfind <- Hfeed.
    destruct (refresh_prefix env request k info ns w Hdb Hreq Hfind Hfeed)
      as (j & o & Hj & Hrun & Hret & Hexn).
    exists j, o. eexists. split; [exact Hrun|]. cbn [table trace].
    split; [exact Hj|]. split; [now rewrite Hev|].
    split; [rewrite (watermark_updated k info ns _ Hfind); f_equal; lia|].
    split; [intros r Hr; now apply (Hret r) | exact Hexn].
  - intros bot w <- Hfind <- Hfeed.
    destruct (scheduled_body_prefix env bot ns w Hdb Hfeed)
      as (j & o & Hj & Hrun & Hret & Hexn).
    exists j, o. eexists. split; [exact Hrun|]. cbn [table trace].
    split; [exact Hj|]. split; [now rewrite Hev|].
    split; [rewrite (watermark_updated _ bot ns _ Hfind); f_equal; lia|].
    split; [exact Hret | exact Hexn].
  - intros Hs. split.
    + intros env2 request2 info2 ns2 w2 Hdb2 Hreq2 Hfind2 Hle Hfeed2.
      destruct (refresh_prefix env2 request2 k info2 ns2 w2 Hdb2 Hreq2 Hfind2 Hfeed2)
        as (j2 & o2 & _ & Hrun2 & _).
      exists j2, o2. eexists. split; [exact Hrun2|]. split; [reflexivity|].
      intros m n Hm Hn. apply posted_above_watermark in Hm.
      pose proof (newest_first_bound ns Hs n Hn). lia.
    + intros env2 bot ns2 w2 Hdb2 <- Hle Hfeed2.
      destruct (scheduled_body_prefix env2 bot ns2 w2 Hdb2 Hfeed2)
        as (j2 & o2 & _ & Hrun2 & _).
      exists j2, o2. eexists. split; [exact Hrun2|]. split; [reflexivity|].
      intros m n Hm Hn. apply posted_above_watermark in Hm.
      pose proof (newest_first_bound ns Hs n Hn). lia.
Qed.

Lemma watermark_advances_before_dispatch_witness :
  exists j o w',
    fetch (Sample.env_post_fails Sample.feed 2) (Sample.refresh Sample.hook)
      (Sample.world [Sample.row 100]) = (o, w') /\
    (j <= 3)%nat /\
    trace w' = refresh_prelude Sample.hook (Sample.row 100)
                 ++ [DbUpdate Sample.hook 103]
                 ++ posts Sample.hook
                      (firstn j [Sample.notice 101 "n101"; Sample.notice 102 "n102";
                                 Sample.notice 103 "n103"]) /\
    watermark (table w') Sample.hook = Some 103.
Proof.
  destruct (watermark_advances_before_dispatch (Sample.env_post_fails Sample.feed 2)
              Sample.hook 100 Sample.feed) as (Hrefresh & _).
  - intros h. reflexivity.
  - simpl. lia.
  - destruct (Hrefresh (Sample.refresh Sample.hook) (Sample.row 100)
                (Sample.world [Sample.row 100]))
      as (j & o & w' & Hrun & Hj & Htrace & Hmark & _).
    + repeat split. discriminate.
    + reflexivity.
    + reflexivity.
    + reflexivity.
    + exists j, o, w'. split; [exact Hrun|]. split; [exact Hj|].
      split; [exact Htrace | exact Hmark].
Defined.

(** The second POST is rejected: the watermark is 103 all the same, and the
    next refresh posts neither 102 nor 103. *)
Example rejected_post_is_not_retried :
  let r := fetch (Sample.env_post_fails Sample.feed 2) (Sample.refresh Sample.hook)
             (Sample.world [Sample.row 100]) in
  fst r = Threw WebhookFetchError /\
  table (snd r) = [Sample.row 103] /\
  trace (snd r) = refresh_prelude Sample.hook (Sample.row 100)
                    ++ [DbUpdate Sample.hook 103]
                    ++ posts Sample.hook
                         [Sample.notice 101 "n101"; Sample.notice 102 "n102"] /\
  fetch (Sample.env_ok Sample.feed) (Sample.refresh Sample.hook)
    (Sample.world (table (snd r)))
  = (Returned (text_response 200 "Success"),
     mkWorld [Sample.row 103] (refresh_prelude Sample.hook (Sample.row 103))).
Proof. vm_compute. repeat split. Qed.

(** ** Uniqueness of the webhook *)

(** A creation request with D1 available and the list fetched: 409 and an
    untouched table when the key is present, 201 and one more row when not. *)
Lemma create_run env request k payload ns w :
  d1_available env -> is_create request k payload ->
  NOTICE_WORKER env (trace w ++ [NoticeFetch (create_target payload)]) = Feed ns ->
  fetch env request w =
    match find (has_key k) (table w) with
    | Some _ =>
        (Returned (text_response 409 "Conflict: Duplicate entry for unique field"),
         mkWorld (table w) (trace w ++ [NoticeFetch (create_target payload); DbSelect k]))
    | None =>
        let newRecord := mkDiscordBot k (first_id ns) (payload_query payload) in
        (Returned (text_response 201 "Webhook registered successfully"),
         mkWorld (table w ++ [newRecord])
           (trace w ++ [NoticeFetch (create_target payload); DbSelect k; DbInsert newRecord]))
    end.
Proof.
  intros Hdb (Hp & Hm & Hq & Hk & Hbody) Hfeed.
  unfold fetch, webhook_post. rewrite Hp, Hm, Hq, (truthy_nonempty k Hk).
  cbn [String.eqb Ascii.eqb Bool.eqb].
  unfold request_json. rewrite Hbody. unfold bind at 1, ret at 1.
  fold (payload_query payload). fold (create_target payload).
  unfold bind at 1, notice_worker_fetch_json. rewrite Hfeed.
  cbn [latest_id]. unfold bind at 1, ret at 1.
  unfold try_catch, bind, db_select_get, db_insert. cbn [table trace].
  rewrite !Hdb. destruct (find (has_key k) (table w)) eqn:Hfind.
  - unfold ret. now rewrite <- !app_assoc.
  - cbn [table trace webhook]. rewrite ?Hdb, (find_none_existsb k _ Hfind).
    cbn [negb andb]. unfold ret. now rewrite <- !app_assoc.
Qed.

(** Whatever fails, a creation request for a registered key leaves the
    table as it is. *)
Lemma create_never_overwrites env request k info w :
  pathname request = "/api/webhook" -> method request = "POST" ->
  params_get "webhook" (searchParams request) = Some k ->
  find (has_key k) (table w) = Some info ->
  table (snd (fetch env request w)) = table w.
Proof.
  intros Hp Hm Hq Hfind. unfold fetch, webhook_post. rewrite Hp, Hm, Hq.
  cbn [String.eqb Ascii.eqb Bool.eqb].
  destruct (truthy (Some k)); [|reflexivity].
  unfold request_json. destruct (json_body request) as [payload|]; [|reflexivity].
  unfold bind at 1, ret at 1. run_notice_fetch parsed; [|reflexivity].
  run_latest_id v; [|reflexivity].
  unfold try_catch, bind, db_select_get. cbn [table trace].
  destruct (DB env _); [|reflexivity]. now rewrite Hfind.
Qed.

Lemma two_creates env first second k p1 p2 w :
  d1_available env -> (forall h, exists ns, NOTICE_WORKER env h = Feed ns) ->
  is_create first k p1 -> is_create second k p2 ->
  find (has_key k) (table w) = None ->
  exists v w2,
    two_requests env first second w = (Some 201, Some 409, w2) /\
    table w2 = table w ++ [mkDiscordBot k v (payload_query p1)].
Proof.
  intros Hdb Hfeeds H1 H2 Hfind. unfold two_requests.
  destruct (Hfeeds (trace w ++ [NoticeFetch (create_target p1)])) as (ns1 & Hf1).
  rewrite (create_run env first k p1 ns1 w Hdb H1 Hf1), Hfind. cbv zeta.
  set (row := mkDiscordBot k (first_id ns1) (payload_query p1)).
  set (w1 := mkWorld _ _).
  destruct (Hfeeds (trace w1 ++ [NoticeFetch (create_target p2)])) as (ns2 & Hf2).
  rewrite (create_run env second k p2 ns2 w1 Hdb H2 Hf2).
  assert (Hrow : find (has_key k) (table w1) = Some row)
    by (apply find_snoc; [exact Hfind | reflexivity]).
  rewrite Hrow. exists (first_id ns1). eexists. split; reflexivity.
Qed.

(** A creation request whose select finds no row goes on with the insert. *)
Lemma create_reaches_insert env request k payload ns w :
  is_create request k payload ->
  NOTICE_WORKER env (trace w ++ [NoticeFetch (create_target payload)]) = Feed ns ->
  DB env (trace w ++ [NoticeFetch (create_target payload); DbSelect k]) = true ->
  find (has_key k) (table w) = None ->
  fetch env request w
  = webhook_post_insert env (mkDiscordBot k (first_id ns) (payload_query payload))
      (mkWorld (table w) (trace w ++ [NoticeFetch (create_target payload); DbSelect k])).
Proof.
  intros (Hp & Hm & Hq & Hk & Hbody) Hfeed Hdb Hfind.
  unfold fetch, webhook_post. rewrite Hp, Hm, Hq, (truthy_nonempty k Hk).
  cbn [String.eqb Ascii.eqb Bool.eqb].
  unfold request_json. rewrite Hbody. unfold bind at 1, ret at 1.
  fold (payload_query payload). fold (create_target payload).
  unfold bind at 1, notice_worker_fetch_json. rewrite Hfeed.
  cbn [latest_id]. unfold bind at 1, ret at 1.
  unfold webhook_post_insert, try_catch, bind at 1, db_select_get. cbn [table trace].
  rewrite <- app_assoc. cbn [app]. now rewrite Hdb, Hfind.
Qed.

(** Should another handler insert the key between the select and the insert
    of this one, the primary key refuses the insert and the answer is 500;
    the row of the other handler stays. *)
Remark insert_after_lost_race env newRecord w :
  existsb (has_key (webhook newRecord)) (table w) = true ->
  webhook_post_insert env newRecord w
  = (Returned internal_error, mkWorld (table w) (trace w ++ [DbInsert newRecord])).
Proof.
  intros Hin. unfold webhook_post_insert, try_catch, bind, db_insert.
  rewrite Hin, andb_false_r. reflexivity.
Qed.

(** C6: with D1 available and the notice list fetched, a creation request
    for a registered webhook answers 409 and the table is untouched (and it
    is untouched whatever fails during the request), while one for an
    unregistered webhook answers 201 and appends its row.  Of two creation
    requests for the same unregistered webhook handled one after the other,
    in either order, the first answers 201 and the second 409, and the row
    kept is the first one's. *)
Theorem create_conflicts_on_duplicate env k w :
  (forall request payload ns info,
      d1_available env -> is_create request k payload ->
      NOTICE_WORKER env (trace w ++ [NoticeFetch (create_target payload)]) = Feed ns ->
      find (has_key k) (table w) = Some info ->
      fetch env request w
      = (Returned (text_response 409 "Conflict: Duplicate entry for unique field"),
         mkWorld (table w) (trace w ++ [NoticeFetch (create_target payload); DbSelect k]))) /\
  (forall request info,
      pathname request = "/api/webhook" -> method request = "POST" ->
      params_get "webhook" (searchParams request) = Some k ->
      find (has_key k) (table w) = Some info ->
      table (snd (fetch env request w)) = table w) /\
  (forall request payload ns,
      d1_available env -> is_create request k payload ->
      NOTICE_WORKER env (trace w ++ [NoticeFetch (create_target payload)]) = Feed ns ->
      find (has_key k) (table w) = None ->
      let newRecord := mkDiscordBot k (first_id ns) (payload_query payload) in
      fetch env request w
      = (Returned (text_response 201 "Webhook registered successfully"),
         mkWorld (table w ++ [newRecord])
           (trace w ++ [NoticeFetch (create_target payload); DbSelect k;
                        DbInsert newRecord]))) /\
  (forall r1 r2 p1 p2,
      d1_available env -> (forall h, exists ns, NOTICE_WORKER env h = Feed ns) ->
      is_create r1 k p1 -> is_create r2 k p2 ->
      find (has_key k) (table w) = None ->
      exists v12 w12 v21 w21,
        two_requests env r1 r2 w = (Some 201, Some 409, w12) /\
        table w12 = table w ++ [mkDiscordBot k v12 (payload_query p1)] /\
        two_requests env r2 r1 w = (Some 201, Some 409, w21) /\
        table w21 = table w ++ [mkDiscordBot k v21 (payload_query p2)]).
Proof.
  repeat apply conj.
  - intros request payload ns info Hdb Hreq Hfeed Hfind.
    now rewrite (create_run env request k payload ns w Hdb Hreq Hfeed), Hfind.
  - intros request info. now apply create_never_overwrites.
  - intros request payload ns Hdb Hreq Hfeed Hfind.
    now rewrite (create_run env request k payload ns w Hdb Hreq Hfeed), Hfind.
  - intros r1 r2 p1 p2 Hdb Hfeeds H1 H2 Hfind.
    destruct (two_creates env r1 r2 k p1 p2 w Hdb Hfeeds H1 H2 Hfind) as (v12 & w12 & Ha & Hb).
    destruct (two_creates env r2 r1 k p2 p1 w Hdb Hfeeds H2 H1 Hfind) as (v21 & w21 & Hc & Hd).
    exists v12, w12, v21, w21. auto.
Qed.

Lemma create_conflicts_on_duplicate_witness :
  let env := Sample.env_ok Sample.feed in
  let r1 := Sample.create Sample.hook Sample.general in
  let r2 := Sample.create Sample.hook (mkPayload None None (Some "exam")) in
  fetch env r2 (Sample.world [Sample.row 100])
  = (Returned (text_response 409 "Conflict: Duplicate entry for unique field"),
     mkWorld [Sample.row 100]
       [NoticeFetch (create_target (mkPayload None None (Some "exam")));
        DbSelect Sample.hook]) /\
  exists v12 w12 v21 w21,
    two_requests env r1 r2 (Sample.world []) = (Some 201, Some 409, w12) /\
    table w12 = [mkDiscordBot Sample.hook v12 "category=general"] /\
    two_requests env r2 r1 (Sample.world []) = (Some 201, Some 409, w21) /\
    table w21 = [mkDiscordBot Sample.hook v21 "search=exam"].
Proof.
  split.
  - apply (proj1 (create_conflicts_on_duplicate (Sample.env_ok Sample.feed) Sample.hook
                    (Sample.world [Sample.row 100]))
             (Sample.create Sample.hook (mkPayload None None (Some "exam")))
             (mkPayload None None (Some "exam")) Sample.feed (Sample.row 100)).
    + intros h. reflexivity.
    + repeat split. discriminate.
    + reflexivity.
    + reflexivity.
  - apply (proj2 (proj2 (proj2 (create_conflicts_on_duplicate (Sample.env_ok Sample.feed)
                                  Sample.hook (Sample.world []))))
             (Sample.create Sample.hook Sample.general)
             (Sample.create Sample.hook (mkPayload None None (Some "exam")))
             Sample.general (mkPayload None None (Some "exam"))).
    + intros h. reflexivity.
    + intros h. exists Sample.feed. reflexivity.
    + repeat split. discriminate.
    + repeat split. discriminate.
    + reflexivity.
Defined.

(** ** The watermark never goes down *)

Lemma advances_refl t : advances t t.
Proof. induction t; constructor; auto. split; [reflexivity | lia]. Qed.

Lemma advances_trans t1 t2 t3 : advances t1 t2 -> advances t2 t3 -> advances t1 t3.
Proof.
  intros H12. revert t3. induction H12 as [|a b l1 l2 [Hk Hv] _ IH]; intros t3 H23.
  - inversion H23. constructor.
  - inversion H23 as [|b' c l2' l3 [Hk' Hv'] Hrest]; subst.
    constructor; [split; [congruence | lia] | now apply IH].
Qed.

Lemma advances_keys t t' : advances t t' -> map webhook t' = map webhook t.
Proof. induction 1 as [|a b l1 l2 [Hk _] _ IH]; simpl; congruence. Qed.

Lemma advances_never_lowered t t' : advances t t' -> never_lowered t t'.
Proof.
  intros H k. unfold watermark.
  induction H as [|a b l1 l2 [Hk Hv] _ IH]; intros v v'; simpl; [discriminate|].
  unfold has_key at 1 3. rewrite <- Hk.
  destruct (webhook a =? k)%string; simpl; [|apply IH].
  intros [= <-] [= <-]. exact Hv.
Qed.

Lemma unique_row t a b :
  unique_keys t -> In a t -> In b t -> webhook a = webhook b -> a = b.
Proof.
  unfold unique_keys. induction t as [|r t IH]; simpl; [contradiction|].
  intros Hnd Ha Hb Hk. inversion Hnd as [|? ? Hnotin Hnd']; subst.
  destruct Ha as [<-|Ha], Hb as [<-|Hb]; auto.
  - exfalso. apply Hnotin. rewrite Hk. now apply in_map.
  - exfalso. apply Hnotin. rewrite <- Hk. now apply in_map.
Qed.

Lemma set_latestId_key k v r : webhook (set_latestId k v r) = webhook r.
Proof. unfold set_latestId. now destruct (has_key k r). Qed.

Lemma advances_set k v t :
  (forall r, In r t -> webhook r = k -> latestId r <= v) ->
  advances t (map (set_latestId k v) t).
Proof.
  induction t as [|r t IH]; intros Hle; simpl; constructor.
  - split; [now rewrite set_latestId_key|]. unfold set_latestId.
    destruct (has_key k r) eqn:E; simpl; [|lia].
    apply Hle; [now left | now apply has_key_eq].
  - apply IH. intros r' Hr'. apply Hle. now right.
Qed.

Lemma kept_row k v t b :
  In b t -> webhook b <> k -> In b (map (set_latestId k v) t).
Proof.
  intros Hb Hk. apply in_map_iff. exists b. split; [|exact Hb].
  unfold set_latestId. destruct (has_key k b) eqn:E; [|reflexivity].
  now apply has_key_eq in E.
Qed.

Lemma find_app_some {A} (f : A -> bool) l l' x :
  find f l = Some x -> find f (l ++ l') = Some x.
Proof.
  induction l as [|a l IH]; simpl; [discriminate|]. now destruct (f a).
Qed.

Lemma find_after_delete k k0 t :
  find (has_key k) (filter (fun r => negb (has_key k0 r)) t) =
  if (k =? k0)%string then None else find (has_key k) t.
Proof.
  induction t as [|r t IH]; simpl; [now destruct (k =? k0)%string|].
  destruct (has_key k0 r) eqn:E0; simpl.
  - rewrite IH. destruct (String.eqb_spec k k0) as [->|Hne]; [reflexivity|].
    destruct (has_key k r) eqn:E; [|reflexivity].
    apply has_key_eq in E, E0. congruence.
  - destruct (has_key k r) eqn:E; [|exact IH].
    destruct (String.eqb_spec k k0) as [->|Hne]; [congruence | reflexivity].
Qed.

Lemma unique_keys_filter f t : unique_keys t -> unique_keys (filter f t).
Proof.
  unfold unique_keys. induction t as [|r t IH]; simpl; intros Hnd; [constructor|].
  inversion Hnd as [|? ? Hnotin Hnd']; subst.
  destruct (f r); simpl; auto. constructor; auto.
  intros Hin. apply Hnotin. apply in_map_iff in Hin as (x & Hx & Hin).
  apply filter_In in Hin as [Hin _]. rewrite <- Hx. now apply in_map.
Qed.

Lemma unique_keys_snoc t row :
  unique_keys t -> existsb (has_key (webhook row)) t = false -> unique_keys (t ++ [row]).
Proof.
  unfold unique_keys. intros Hnd Hfresh. rewrite map_app. simpl.
  apply NoDup_rev in Hnd. rewrite <- (rev_involutive (map webhook t ++ [webhook row])).
  apply NoDup_rev. rewrite rev_app_distr. simpl. constructor; [|exact Hnd].
  rewrite <- in_rev. intros Hin. apply in_map_iff in Hin as (x & Hx & Hin).
  assert (existsb (has_key (webhook row)) t = true); [|congruence].
  apply existsb_exists. exists x. split; [exact Hin | now apply has_key_eq].
Qed.

(** Each shape keeps the key unique and never lowers a watermark. *)
Lemma table_step_sound t t' :
  unique_keys t -> table_step t t' -> unique_keys t' /\ never_lowered t t'.
Proof.
  intros Hnd Hstep. destruct Hstep as [|row Hfresh|k0|k0 info v Hfind Hlt].
  - split; [exact Hnd|]. intros k v v' H1 H2. rewrite H1 in H2. injection H2. lia.
  - split; [now apply unique_keys_snoc|]. intros k v v'. unfold watermark.
    destruct (find (has_key k) t) as [r|] eqn:E; [|discriminate].
    rewrite (find_app_some _ _ _ _ E). simpl. intros [= <-] [= <-]. lia.
  - split; [now apply unique_keys_filter|]. intros k v v'. unfold watermark.
    rewrite find_after_delete. destruct (k =? k0)%string; [discriminate|].
    intros H1 H2. rewrite H1 in H2. injection H2. lia.
  - assert (Hadv : advances t (map (set_latestId k0 v) t)).
    { apply advances_set. intros r Hr Hk.
      apply find_some in Hfind as [Hin Hkey]. apply has_key_eq in Hkey.
      rewrite (unique_row t r info Hnd Hr Hin) by congruence. lia. }
    split; [|now apply advances_never_lowered].
    unfold unique_keys. now rewrite (advances_keys _ _ Hadv).
Qed.

Lemma bind_ret_world {A B} (m : M A) (r : B) w :
  snd (bind m (fun _ => ret r) w) = snd (m w).
Proof. unfold bind. now destruct (m w) as [[a|e] w1]. Qed.

(** The tail of a sync leaves the table as it is or raises one watermark. *)
Lemma sync_tail_table env k stored ns w :
  table (snd (sync_tail env k stored ns w)) = table w \/
  (stored < first_id ns /\
   table (snd (sync_tail env k stored ns w)) = map (set_latestId k (first_id ns)) (table w)).
Proof.
  unfold sync_tail, bind.
  destruct (first_id ns >? stored) eqn:E.
  - unfold db_update_latestId. destruct (DB env _); [|now left].
    match goal with |- context [for_of ?l ?f ?w0] =>
      destruct (deliver_prefix env k l w0) as (j & o & _ & Hrun & _) end.
    rewrite Hrun. right. rewrite Z.gtb_ltb in E. apply Z.ltb_lt in E. auto.
  - unfold ret at 1.
    destruct (deliver_prefix env k (newNotices ns stored) w) as (j & o & _ & Hrun & _).
    rewrite Hrun. now left.
Qed.

(** The same whatever was parsed. *)
Lemma sync_parsed_table env k stored parsed w :
  table (snd (sync_parsed env k stored parsed w)) = table w \/
  exists v, stored < v /\
            table (snd (sync_parsed env k stored parsed w))
            = map (set_latestId k v) (table w).
Proof.
  destruct (sync_parsed_cases env k stored parsed w) as (o & t' & s & Hrun & Ht & _).
  rewrite Hrun. cbn [snd table]. destruct Ht as [->|(v & Hlt & ->)]; [now left|].
  right. now exists v.
Qed.

Lemma webhook_refresh_tail env request w :
  webhook_refresh env request w =
    match params_get "webhook" (searchParams request) with
    | Some k =>
        if truthy (Some k) then
          (info <- db_select_get env k ;;
           match info with
           | None => ret not_found
           | Some info =>
               notices <- notice_worker_fetch_json env (refresh_target info) ;;
               sync_parsed env k (latestId info) notices ;;;
               ret (text_response 200 "Success")
           end) w
        else ret bad_request w
    | None => ret bad_request w
    end.
Proof.
  unfold webhook_refresh. destruct (params_get "webhook" (searchParams request)) as [k|];
    [|reflexivity].
  destruct (truthy (Some k)); [|reflexivity].
  apply bind_ext. intros [info|] w1; [|reflexivity].
  apply bind_ext. intros parsed w2. apply sync_parsed_then.
Qed.

Lemma webhook_refresh_step env request w :
  table_step (table w) (table (snd (webhook_refresh env request w))).
Proof.
  rewrite webhook_refresh_tail.
  destruct (params_get "webhook" (searchParams request)) as [k|]; [|constructor].
  destruct (truthy (Some k)); [|constructor].
  unfold bind at 1, db_select_get. destruct (DB env _); [|constructor].
  destruct (find (has_key k) (table w)) as [info|] eqn:Hfind; [|constructor].
  run_notice_fetch parsed; [|constructor].
  rewrite bind_ret_world.
  match goal with |- context [sync_parsed env k ?s parsed ?w0] =>
    destruct (sync_parsed_table env k s parsed w0) as [Hsame|(v & Hlt & Hup)] end.
  - rewrite Hsame. constructor.
  - rewrite Hup. cbn [table]. now apply (step_update _ k info).
Qed.

Lemma webhook_post_step env request w :
  table_step (table w) (table (snd (webhook_post env request w))).
Proof.
  unfold webhook_post.
  destruct (params_get "webhook" (searchParams request)) as [k|]; [|constructor].
  destruct (truthy (Some k)); [|constructor].
  unfold request_json. destruct (json_body request) as [payload|]; [|constructor].
  unfold bind at 1, ret at 1. run_notice_fetch parsed; [|constructor].
  run_latest_id v; [|constructor].
  unfold try_catch, bind, db_select_get. cbn [table trace].
  destruct (DB env _); [|constructor].
  destruct (find (has_key k) (table w)); [constructor|].
  unfold db_insert. cbn [table trace webhook].
  destruct (DB env _ && negb (existsb (has_key k) (table w))) eqn:E; [|constructor].
  apply andb_true_iff in E as [_ E]. apply negb_true_iff in E.
  cbn [snd table]. now apply step_insert.
Qed.

Lemma webhook_delete_step env request w :
  table_step (table w) (table (snd (webhook_delete env request w))).
Proof.
  unfold webhook_delete.
  destruct (params_get "webhook" (searchParams request)) as [k|]; [|constructor].
  destruct (truthy (Some k)); [|constructor].
  unfold try_catch, bind, db_delete. destruct (DB env _); [|constructor].
  destruct (_ =? 0); apply step_delete.
Qed.

Lemma webhook_get_step env request w :
  table_step (table w) (table (snd (webhook_get env request w))).
Proof.
  unfold webhook_get.
  destruct (params_get "webhook" (searchParams request)) as [k|]; [|constructor].
  destruct (truthy (Some k)); [|constructor].
  unfold bind, db_select_get. destruct (DB env _); [|constructor].
  destruct (find (has_key k) (table w)); constructor.
Qed.

(** Whatever the request and whatever fails, the table after [fetch] has one
    of the four shapes. *)
Lemma fetch_table_step env request w :
  table_step (table w) (table (snd (fetch env request w))).
Proof.
  unfold fetch.
  destruct (pathname request =? "/api/webhook")%string.
  - destruct (method request =? "OPTIONS")%string; [constructor|].
    destruct (method request =? "GET")%string; [apply webhook_get_step|].
    destruct (method request =? "POST")%string; [apply webhook_post_step|].
    destruct (method request =? "DELETE")%string; [apply webhook_delete_step|].
    constructor.
  - destruct (pathname request =? "/api/webhook/refresh")%string; [|constructor].
    destruct (negb (method request =? "POST")%string); [constructor|].
    apply webhook_refresh_step.
Qed.

(** One turn of the sweep's loop on a row that is still in the table. *)
Lemma scheduled_body_step env bot w :
  unique_keys (table w) -> In bot (table w) ->
  let t' := table (snd (scheduled_body env bot w)) in
  advances (table w) t' /\
  (forall b, In b (table w) -> webhook b <> webhook bot -> In b t').
Proof.
  intros Hnd Hbot. rewrite scheduled_body_is_sync.
  run_notice_fetch parsed; cbn [snd table];
    [|split; [apply advances_refl | auto]].
  match goal with |- context [sync_parsed env ?k ?s parsed ?w0] =>
    destruct (sync_parsed_table env k s parsed w0) as [Hsame|(v & Hlt & Hup)] end.
  - rewrite Hsame. cbn [table]. split; [apply advances_refl | auto].
  - rewrite Hup. cbn [table]. split.
    + apply advances_set. intros r Hr Hk.
      rewrite (unique_row (table w) r bot Hnd Hr Hbot Hk). lia.
    + intros b Hb Hk. now apply kept_row.
Qed.

Lemma sweep_advances env bots :
  forall w,
    unique_keys (table w) -> NoDup (map webhook bots) ->
    (forall b, In b bots -> In b (table w)) ->
    advances (table w) (table (snd (for_of bots (scheduled_body env) w))).
Proof.
  induction bots as [|bot rest IH]; intros w Hnd Hbots Hin; simpl.
  - apply advances_refl.
  - destruct (scheduled_body_step env bot w Hnd (Hin bot (or_introl eq_refl)))
      as [Hadv Hkept].
    unfold bind. destruct (scheduled_body env bot w) as [[[]|e] w1]; cbn [snd] in *;
      [|exact Hadv].
    inversion Hbots as [|? ? Hnotin Hrest]; subst.
    apply (advances_trans _ (table w1)); [exact Hadv|].
    apply IH; [|exact Hrest|].
    + unfold unique_keys. now rewrite (advances_keys _ _ Hadv).
    + intros b Hb. apply Hkept; [apply Hin; now right|].
      intros Hk. apply Hnotin. rewrite <- Hk. now apply in_map.
Qed.

Lemma scheduled_advances env w :
  unique_keys (table w) -> advances (table w) (table (snd (scheduled env w))).
Proof.
  intros Hnd. unfold scheduled, bind at 1, db_select_all.
  destruct (DB env _); [|apply advances_refl].
  apply (sweep_advances env (table w) (mkWorld (table w) _)); auto.
Qed.

(** C9: on a table whose webhooks are pairwise distinct (the primary key),
    no request handled by [fetch] and no run of [scheduled] leaves a webhook
    with a stored watermark smaller than the one it had before, whatever
    fails on the way; and the webhooks are still pairwise distinct
    afterwards. *)
Theorem watermark_never_decreases env w :
  unique_keys (table w) ->
  (forall request,
      never_lowered (table w) (table (snd (fetch env request w))) /\
      unique_keys (table (snd (fetch env request w)))) /\
  never_lowered (table w) (table (snd (scheduled env w))) /\
  unique_keys (table (snd (scheduled env w))).
Proof.
  intros Hnd. split; [|split].
  - intros request.
    destruct (table_step_sound _ _ Hnd (fetch_table_step env request w)). auto.
  - now apply advances_never_lowered, scheduled_advances.
  - unfold unique_keys. now rewrite (advances_keys _ _ (scheduled_advances env w Hnd)).
Qed.

Lemma watermark_never_decreases_witness :
  let w := Sample.world [Sample.row 100; Sample.row2 50] in
  let env := Sample.env_ok Sample.feed in
  (forall request,
      never_lowered (table w) (table (snd (fetch env request w))) /\
      unique_keys (table (snd (fetch env request w)))) /\
  never_lowered (table w) (table (snd (scheduled env w))) /\
  unique_keys (table (snd (scheduled env w))).
Proof.
  apply (watermark_never_decreases (Sample.env_ok Sample.feed)
           (Sample.world [Sample.row 100; Sample.row2 50])).
  repeat constructor; simpl; intuition discriminate.
Defined.

(** ** The refresh handler and the body of the sweep *)

(** Two delivery loops whose endpoints answer alike from here on post the
    same events and end alike. *)
Lemma deliver_lockstep env1 env2 k l :
  forall w1 w2,
    (forall s, global_fetch env1 (trace w1 ++ s) = global_fetch env2 (trace w2 ++ s)) ->
    exists o s,
      for_of l (fun notice => fetch_post env1 k (notice_form notice)) w1
      = (o, mkWorld (table w1) (trace w1 ++ s)) /\
      for_of l (fun notice => fetch_post env2 k (notice_form notice)) w2
      = (o, mkWorld (table w2) (trace w2 ++ s)).
Proof.
  induction l as [|n l IH]; intros w1 w2 Hsame; simpl.
  - exists (Returned tt), []. unfold ret. now rewrite !world_eta.
  - unfold bind, fetch_post in *.
    rewrite <- (Hsame [WebhookPost k (notice_form n)]).
    destruct (global_fetch env1 _) as [|code].
    + exists (Threw WebhookFetchError), [WebhookPost k (notice_form n)]. auto.
    + destruct (IH (mkWorld (table w1) (trace w1 ++ [WebhookPost k (notice_form n)]))
                  (mkWorld (table w2) (trace w2 ++ [WebhookPost k (notice_form n)])))
        as (o & s & H1 & H2).
      { intros s. cbn [trace]. rewrite <- !app_assoc. apply Hsame. }
      exists o, (WebhookPost k (notice_form n) :: s).
      rewrite H1, H2. cbn [table trace]. now rewrite <- !app_assoc.
Qed.

Lemma sync_tail_lockstep env1 env2 k stored ns w1 w2 :
  table w2 = table w1 ->
  (forall s, DB env1 (trace w1 ++ s) = DB env2 (trace w2 ++ s)) ->
  (forall s, global_fetch env1 (trace w1 ++ s) = global_fetch env2 (trace w2 ++ s)) ->
  exists o s t',
    sync_tail env1 k stored ns w1 = (o, mkWorld t' (trace w1 ++ s)) /\
    sync_tail env2 k stored ns w2 = (o, mkWorld t' (trace w2 ++ s)).
Proof.
  intros Ht Hdb Hgf. unfold sync_tail, bind.
  destruct (first_id ns >? stored).
  - unfold db_update_latestId. rewrite <- (Hdb [DbUpdate k (first_id ns)]), Ht.
    destruct (DB env1 _).
    + destruct (deliver_lockstep env1 env2 k (newNotices ns stored)
                  (mkWorld (map (set_latestId k (first_id ns)) (table w1))
                     (trace w1 ++ [DbUpdate k (first_id ns)]))
                  (mkWorld (map (set_latestId k (first_id ns)) (table w1))
                     (trace w2 ++ [DbUpdate k (first_id ns)])))
        as (o & s & H1 & H2).
      { intros s. cbn [trace]. rewrite <- !app_assoc. apply Hgf. }
      exists o, (DbUpdate k (first_id ns) :: s). eexists.
      rewrite H1, H2. cbn [table trace]. rewrite <- !app_assoc. split; reflexivity.
    + exists (Threw D1Error), [DbUpdate k (first_id ns)]. eexists. split; reflexivity.
  - unfold ret.
    destruct (deliver_lockstep env1 env2 k (newNotices ns stored) w1 w2 Hgf)
      as (o & s & H1 & H2).
    exists o, s, (table w1). rewrite H1, H2, Ht. split; reflexivity.
Qed.

(** A tail that returns has written the update when it was due and posted
    every new notice. *)
Lemma sync_tail_returned env k stored ns w w' :
  sync_tail env k stored ns w = (Returned tt, w') ->
  w' = mkWorld (updated_table k stored ns (table w))
         (trace w ++ update_event k stored ns ++ posts k (newNotices ns stored)).
Proof.
  unfold sync_tail, updated_table, update_event, bind.
  destruct (first_id ns >? stored).
  - unfold db_update_latestId. destruct (DB env _); [|discriminate].
    match goal with |- context [for_of ?l ?f ?w0] =>
      destruct (deliver_prefix env k l w0) as (j & o & _ & Hrun & Hret & _) end.
    rewrite Hrun. intros [= -> <-]. rewrite (Hret eq_refl), firstn_all.
    cbn [table trace]. now rewrite <- app_assoc.
  - unfold ret at 1.
    destruct (deliver_prefix env k (newNotices ns stored) w) as (j & o & _ & Hrun & Hret & _).
    rewrite Hrun. intros [= -> <-]. now rewrite (Hret eq_refl), firstn_all.
Qed.

(** C10: for the same stored row and the same fetched list, and with D1 and
    the endpoint answering alike from the fetch on, the refresh handler and
    the body of the sweep end alike (200 for the handler where the body
    returns, the same exception otherwise), leave the same table and issue
    the same events after their fetch; when they return, these events are the
    update of the watermark to the first id of the list if it exceeds the
    stored one, then one POST per new notice, oldest first, each carrying the
    form with [content] = title, line feed, url and the fixed [avatar_url]. *)
Theorem refresh_and_sweep_body_agree env1 env2 request bot ns w1 w2 :
  let k := webhook bot in
  let h1 := trace w1 ++ refresh_prelude k bot in
  let h2 := trace w2 ++ [NoticeFetch (scheduled_target bot)] in
  is_refresh request k ->
  d1_available env1 ->
  find (has_key k) (table w1) = Some bot ->
  table w2 = table w1 ->
  NOTICE_WORKER env1 h1 = Feed ns ->
  NOTICE_WORKER env2 h2 = Feed ns ->
  (forall s, DB env1 (h1 ++ s) = DB env2 (h2 ++ s)) ->
  (forall s, global_fetch env1 (h1 ++ s) = global_fetch env2 (h2 ++ s)) ->
  exists o s t',
    fetch env1 request w1 = (answer_of o, mkWorld t' (h1 ++ s)) /\
    scheduled_body env2 bot w2 = (o, mkWorld t' (h2 ++ s)) /\
    (o = Returned tt ->
     t' = updated_table k (latestId bot) ns (table w1) /\
     s = update_event k (latestId bot) ns ++ posts k (newNotices ns (latestId bot))) /\
    (forall notice,
        notice_form notice
        = [("content", (title notice ++ LF ++ url notice)%string);
           ("avatar_url", "https://www.ajou.ac.kr/_res/ajou/kr/img/intro/img-symbol.png")]).
Proof.
  intros k h1 h2 Hreq Hdb1 Hfind Ht Hf1 Hf2 Hdb Hgf.
  rewrite (refresh_reaches_tail env1 request k bot ns w1 Hdb1 Hreq Hfind Hf1).
  rewrite (scheduled_body_reaches_tail env2 bot ns w2 Hf2).
  fold k h1 h2.
  destruct (sync_tail_lockstep env1 env2 k (latestId bot) ns
              (mkWorld (table w1) h1) (mkWorld (table w2) h2) Ht Hdb Hgf)
    as (o & s & t' & H1 & H2).
  exists o, s, t'. unfold bind. rewrite H1, H2. cbn [trace].
  split; [now destruct o as [[]|e]|]. split; [reflexivity|]. split; [|reflexivity].
  intros ->. apply sync_tail_returned in H1. cbn [table trace] in H1.
  injection H1 as -> Hs. apply app_inv_head in Hs. auto.
Qed.

Lemma refresh_and_sweep_body_agree_witness :
  let w := Sample.world [Sample.row 100] in
  let env := Sample.env_post_fails Sample.feed 2 in
  exists o s t',
    fetch env (Sample.refresh Sample.hook) w
    = (answer_of o, mkWorld t' ((trace w ++ refresh_prelude Sample.hook (Sample.row 100)) ++ s)) /\
    scheduled_body env (Sample.row 100) w
    = (o, mkWorld t' ((trace w ++ [NoticeFetch (scheduled_target (Sample.row 100))]) ++ s)).
Proof.
  destruct (refresh_and_sweep_body_agree (Sample.env_post_fails Sample.feed 2)
              (Sample.env_post_fails Sample.feed 2) (Sample.refresh Sample.hook)
              (Sample.row 100) Sample.feed (Sample.world [Sample.row 100])
              (Sample.world [Sample.row 100]))
    as (o & s & t' & H1 & H2 & _).
  - repeat split. discriminate.
  - intros h. reflexivity.
  - reflexivity.
  - reflexivity.
  - reflexivity.
  - reflexivity.
  - intros s. reflexivity.
  - intros s. reflexivity.
  - exists o, s, t'. split; [exact H1 | exact H2].
Defined.

(** * Beyond the sync: the other routes of [fetch] *)

(** ** The [webhook] parameter *)

(** X1: on each of the four handlers that read it (GET, POST and DELETE on
    [/api/webhook], POST on [/api/webhook/refresh]), a [webhook] parameter
    that is missing or empty is answered 400 and nothing is called: no D1
    statement, no notice fetch, no POST. *)
Theorem falsy_webhook_is_400 env request w :
  reads_webhook request ->
  truthy (params_get "webhook" (searchParams request)) = false ->
  fetch env request w = (Returned bad_request, w).
Proof.
  intros Hroute Hfalsy. unfold fetch.
  destruct Hroute as [[Hp Hm]|[Hp Hm]]; rewrite Hp.
  - destruct Hm as [Hm|[Hm|Hm]]; rewrite Hm; cbn [String.eqb Ascii.eqb Bool.eqb];
      unfold webhook_get, webhook_post, webhook_delete;
      destruct (params_get "webhook" (searchParams request)) as [k|];
      try rewrite Hfalsy; reflexivity.
  - rewrite Hm. cbn [String.eqb Ascii.eqb Bool.eqb negb]. unfold webhook_refresh.
    destruct (params_get "webhook" (searchParams request)) as [k|];
      try rewrite Hfalsy; reflexivity.
Qed.

Lemma falsy_webhook_is_400_witness :
  let w := Sample.world [Sample.row 100] in
  fetch (Sample.env_ok Sample.feed) (Sample.refresh "") w = (Returned bad_request, w) /\
  fetch (Sample.env_ok Sample.feed) (Sample.delete "") w = (Returned bad_request, w) /\
  fetch (Sample.env_ok Sample.feed)
    (mkRequest "POST" "/api/webhook/refresh" [("hook", "x")] None) w
  = (Returned bad_request, w).
Proof.
  split; [|split].
  - apply (falsy_webhook_is_400 (Sample.env_ok Sample.feed) (Sample.refresh "")
             (Sample.world [Sample.row 100])).
    + right. split; reflexivity.
    + reflexivity.
  - apply (falsy_webhook_is_400 (Sample.env_ok Sample.feed) (Sample.delete "")
             (Sample.world [Sample.row 100])).
    + left. split; [reflexivity | right; right; reflexivity].
    + reflexivity.
  - apply (falsy_webhook_is_400 (Sample.env_ok Sample.feed)
             (mkRequest "POST" "/api/webhook/refresh" [("hook", "x")] None)
             (Sample.world [Sample.row 100])).
    + right. split; reflexivity.
    + reflexivity.
Defined.

(** ** Routing *)

(** X2: a request on any path other than the two routes is answered 404;
    on [/api/webhook/refresh] any method but POST is answered 405 before the
    [webhook] parameter is looked at; on [/api/webhook] any method but
    OPTIONS, GET, POST and DELETE is answered 405.  The 405 answers carry
    [Allow: GET], and in all three cases nothing is called. *)
Theorem unrouted_requests_call_nothing env request w :
  (pathname request <> "/api/webhook" -> pathname request <> "/api/webhook/refresh" ->
   fetch env request w = (Returned (text_response 404 "Call /api/webhook"), w)) /\
  (pathname request = "/api/webhook/refresh" -> method request <> "POST" ->
   fetch env request w = (Returned method_not_allowed, w)) /\
  (pathname request = "/api/webhook" ->
   method request <> "OPTIONS" -> method request <> "GET" ->
   method request <> "POST" -> method request <> "DELETE" ->
   fetch env request w = (Returned method_not_allowed, w)) /\
  status method_not_allowed = 405 /\
  headers method_not_allowed = [("Allow", "GET")].
Proof.
  unfold fetch. repeat split.
  - intros H1 H2. apply String.eqb_neq in H1, H2. now rewrite H1, H2.
  - intros Hp Hm. rewrite Hp. apply String.eqb_neq in Hm. rewrite Hm. reflexivity.
  - intros Hp Ho Hg Hpo Hd. rewrite Hp.
    apply String.eqb_neq in Ho, Hg, Hpo, Hd. rewrite Ho, Hg, Hpo, Hd. reflexivity.
Qed.

Lemma unrouted_requests_call_nothing_witness :
  let w := Sample.world [Sample.row 100] in
  let env := Sample.env_d1_down Sample.feed in
  fetch env (mkRequest "GET" "/" [] None) w
  = (Returned (text_response 404 "Call /api/webhook"), w) /\
  fetch env (mkRequest "GET" "/api/webhook/refresh" [] None) w
  = (Returned method_not_allowed, w) /\
  fetch env (mkRequest "PUT" "/api/webhook" [("webhook", Sample.hook)] None) w
  = (Returned method_not_allowed, w).
Proof.
  split; [|split].
  - apply (proj1 (unrouted_requests_call_nothing (Sample.env_d1_down Sample.feed)
                    (mkRequest "GET" "/" [] None) (Sample.world [Sample.row 100])));
      discriminate.
  - apply (proj1 (proj2 (unrouted_requests_call_nothing (Sample.env_d1_down Sample.feed)
                           (mkRequest "GET" "/api/webhook/refresh" [] None)
                           (Sample.world [Sample.row 100]))));
      [reflexivity | discriminate].
  - apply (proj1 (proj2 (proj2 (unrouted_requests_call_nothing
                                  (Sample.env_d1_down Sample.feed)
                                  (mkRequest "PUT" "/api/webhook"
                                     [("webhook", Sample.hook)] None)
                                  (Sample.world [Sample.row 100])))));
      [reflexivity | discriminate ..].
Defined.

(** ** Lookup *)

(** X3: a GET for webhook [k] issues one select and nothing else, never
    changes the table, and answers 200 with the stored row as JSON and the
    CORS header when [k] is registered, 404 when it is not; a D1 failure is
    not caught and escapes as an exception. *)
Theorem lookup_reads_one_row env request k w :
  is_lookup request k ->
  let w1 := mkWorld (table w) (trace w ++ [DbSelect k]) in
  (DB env (trace w ++ [DbSelect k]) = false ->
   fetch env request w = (Threw D1Error, w1)) /\
  (DB env (trace w ++ [DbSelect k]) = true ->
   (forall row, find (has_key k) (table w) = Some row ->
                fetch env request w = (Returned (found row), w1) /\
                webhook row = k /\ status (found row) = 200) /\
   (find (has_key k) (table w) = None ->
    fetch env request w = (Returned not_found, w1))).
Proof.
  intros (Hp & Hm & Hq & Hk) w1. unfold fetch, webhook_get.
  rewrite Hp, Hm, Hq, (truthy_nonempty k Hk). cbn [String.eqb Ascii.eqb Bool.eqb].
  unfold bind, db_select_get. fold w1. split.
  - intros Hdb. now rewrite Hdb.
  - intros Hdb. rewrite Hdb. split.
    + intros row Hrow. rewrite Hrow. split; [reflexivity|]. split; [|reflexivity].
      apply find_some in Hrow as [_ Hkey]. now apply has_key_eq.
    + intros Hnone. now rewrite Hnone.
Qed.

Lemma lookup_reads_one_row_witness :
  let w := Sample.world [Sample.row2 7; Sample.row 100] in
  fetch (Sample.env_ok Sample.feed) (Sample.lookup Sample.hook) w
  = (Returned (found (Sample.row 100)), mkWorld (table w) [DbSelect Sample.hook]) /\
  fetch (Sample.env_ok Sample.feed) (Sample.lookup Sample.hook3) w
  = (Returned not_found, mkWorld (table w) [DbSelect Sample.hook3]) /\
  fetch (Sample.env_d1_down Sample.feed) (Sample.lookup Sample.hook) w
  = (Threw D1Error, mkWorld (table w) [DbSelect Sample.hook]).
Proof.
  split; [|split].
  - apply (proj2 (lookup_reads_one_row (Sample.env_ok Sample.feed)
                    (Sample.lookup Sample.hook) Sample.hook
                    (Sample.world [Sample.row2 7; Sample.row 100])
                    ltac:(repeat split; discriminate))
             eq_refl).
    reflexivity.
  - apply (proj2 (lookup_reads_one_row (Sample.env_ok Sample.feed)
                    (Sample.lookup Sample.hook3) Sample.hook3
                    (Sample.world [Sample.row2 7; Sample.row 100])
                    ltac:(repeat split; discriminate))
             eq_refl).
    reflexivity.
  - apply (proj1 (lookup_reads_one_row (Sample.env_d1_down Sample.feed)
                    (Sample.lookup Sample.hook) Sample.hook
                    (Sample.world [Sample.row2 7; Sample.row 100])
                    ltac:(repeat split; discriminate))).
    reflexivity.
Defined.

(** ** Deletion *)

Lemma find_none_iff k t :
  find (has_key k) t = None <-> ~ In k (map webhook t).
Proof.
  induction t as [|r t IH]; simpl; [tauto|].
  destruct (has_key k r) eqn:E.
  - apply has_key_eq in E. split; [discriminate | intros H; exfalso; auto].
  - rewrite IH. split; [|tauto]. intros Hnot [Hr|Hin]; [|tauto].
    apply has_key_eq in Hr. congruence.
Qed.

Lemma delete_absent k t :
  find (has_key k) t = None ->
  filter (has_key k) t = [] /\ filter (fun r => negb (has_key k r)) t = t.
Proof.
  induction t as [|r t IH]; simpl; [auto|].
  destruct (has_key k r); [discriminate|]. simpl. intros H.
  destruct (IH H) as [-> ->]. auto.
Qed.

Lemma delete_present k t row :
  find (has_key k) t = Some row -> filter (has_key k) t <> [].
Proof.
  induction t as [|r t IH]; simpl; [discriminate|].
  destruct (has_key k r); [discriminate | exact IH].
Qed.

(** With unique keys the delete takes out one row and keeps the order of
    the others. *)
Lemma delete_split k t row :
  unique_keys t -> find (has_key k) t = Some row ->
  exists pre post,
    t = pre ++ row :: post /\
    filter (fun r => negb (has_key k r)) t = pre ++ post.
Proof.
  unfold unique_keys. induction t as [|r t IH]; simpl; [discriminate|].
  intros Hnd Hfind. inversion Hnd as [|? ? Hnotin Hnd']; subst.
  destruct (has_key k r) eqn:E; simpl.
  - injection Hfind as <-. exists [], t. split; [reflexivity|]. simpl.
    apply delete_absent, find_none_iff. apply has_key_eq in E. now rewrite <- E.
  - destruct (IH Hnd' Hfind) as (pre & post & Ht & Hf).
    exists (r :: pre), post. simpl. now rewrite Hf, Ht at 1.
Qed.

(** X4: a DELETE for webhook [k] issues one delete statement and never
    throws.  When D1 fails the answer is 500, when [k] is not registered it is
    404, and in both cases the table is as before; when [k] is registered the
    answer is 200, [k] is no longer in the table and the row of every other
    webhook is found as before; with unique keys exactly the row of [k] is
    taken out and the other rows keep their order. *)
Theorem delete_removes_only_its_row env request k w :
  is_delete request k ->
  let h := trace w ++ [DbDelete k] in
  (DB env h = false ->
   fetch env request w = (Returned internal_error, mkWorld (table w) h)) /\
  (DB env h = true -> find (has_key k) (table w) = None ->
   fetch env request w = (Returned not_found, mkWorld (table w) h)) /\
  (DB env h = true ->
   forall row, find (has_key k) (table w) = Some row ->
   exists t',
     fetch env request w
     = (Returned (text_response 200 "Webhook deleted successfully"), mkWorld t' h) /\
     find (has_key k) t' = None /\
     (forall k', k' <> k -> find (has_key k') t' = find (has_key k') (table w)) /\
     (unique_keys (table w) ->
      exists pre post, table w = pre ++ row :: post /\ t' = pre ++ post)).
Proof.
  intros (Hp & Hm & Hq & Hk) h. unfold fetch, webhook_delete.
  rewrite Hp, Hm, Hq, (truthy_nonempty k Hk). cbn [String.eqb Ascii.eqb Bool.eqb].
  unfold try_catch, bind, db_delete. fold h. split; [|split].
  - intros Hdb. now rewrite Hdb.
  - intros Hdb Hnone. rewrite Hdb.
    destruct (delete_absent k (table w) Hnone) as [-> ->]. reflexivity.
  - intros Hdb row Hrow. rewrite Hdb.
    pose proof (delete_present k (table w) row Hrow) as Hne.
    destruct (filter (has_key k) (table w)) as [|r l] eqn:E; [congruence|].
    change (Z.of_nat (List.length (r :: l)) =? 0) with false. cbv iota.
    eexists. split; [reflexivity|]. split; [|split].
    + rewrite find_after_delete. now rewrite String.eqb_refl.
    + intros k' Hk'. rewrite find_after_delete.
      apply String.eqb_neq in Hk'. now rewrite Hk'.
    + intros Hnd. exact (delete_split k (table w) row Hnd Hrow).
Qed.

Lemma delete_removes_only_its_row_witness :
  let w := Sample.world [Sample.row2 7; Sample.row 100; Sample.row3 9] in
  (exists t',
      fetch (Sample.env_ok Sample.feed) (Sample.delete Sample.hook) w
      = (Returned (text_response 200 "Webhook deleted successfully"),
         mkWorld t' [DbDelete Sample.hook]) /\
      exists pre post, table w = pre ++ Sample.row 100 :: post /\ t' = pre ++ post) /\
  fetch (Sample.env_d1_down Sample.feed) (Sample.delete Sample.hook) w
  = (Returned internal_error, mkWorld (table w) [DbDelete Sample.hook]).
Proof.
  pose proof (delete_removes_only_its_row (Sample.env_ok Sample.feed)
                (Sample.delete Sample.hook) Sample.hook
                (Sample.world [Sample.row2 7; Sample.row 100; Sample.row3 9])
                ltac:(repeat split; discriminate)) as (_ & _ & Hok).
  pose proof (delete_removes_only_its_row (Sample.env_d1_down Sample.feed)
                (Sample.delete Sample.hook) Sample.hook
                (Sample.world [Sample.row2 7; Sample.row 100; Sample.row3 9])
                ltac:(repeat split; discriminate)) as (Hdown & _).
  split; [|exact (Hdown eq_refl)].
  destruct (Hok eq_refl (Sample.row 100) eq_refl) as (t' & Hrun & _ & _ & Hsplit).
  exists t'. split; [exact Hrun|]. apply Hsplit.
  repeat constructor; simpl; intuition discriminate.
Defined.

(** ** Registration, lookup and deletion together *)

Lemma delete_last k t row :
  find (has_key k) t = None -> webhook row = k ->
  filter (fun r => negb (has_key k r)) (t ++ [row]) = t /\
  filter (has_key k) (t ++ [row]) = [row].
Proof.
  intros Hnone Hrow. rewrite !filter_app. simpl.
  apply has_key_eq in Hrow. rewrite Hrow. simpl.
  destruct (delete_absent k t Hnone) as [-> ->]. now rewrite app_nil_r.
Qed.

(** X5: once a creation has been answered 201, a GET for the same webhook
    answers 200 with the row just stored: the webhook, the first id of the
    fetched list (0 for an empty list) and the query string built from the
    payload. *)
Theorem created_row_is_found env env' creation lookup k payload ns w :
  d1_available env -> is_create creation k payload ->
  NOTICE_WORKER env (trace w ++ [NoticeFetch (create_target payload)]) = Feed ns ->
  find (has_key k) (table w) = None ->
  d1_available env' -> is_lookup lookup k ->
  exists w1 w2,
    fetch env creation w
    = (Returned (text_response 201 "Webhook registered successfully"), w1) /\
    fetch env' lookup w1
    = (Returned (found (mkDiscordBot k (first_id ns) (payload_query payload))), w2) /\
    table w2 = table w1.
Proof.
  intros Hdb Hc Hfeed Hnone Hdb' (Hp & Hm & Hq & Hk).
  rewrite (create_run env creation k payload ns w Hdb Hc Hfeed), Hnone. cbv zeta.
  do 2 eexists. split; [reflexivity|].
  unfold fetch, webhook_get.
  rewrite Hp, Hm, Hq, (truthy_nonempty k Hk). cbn [String.eqb Ascii.eqb Bool.eqb].
  unfold bind, db_select_get. rewrite Hdb'. cbn [table trace].
  rewrite (find_snoc k (table w) (mkDiscordBot k (first_id ns) (payload_query payload))
             Hnone eq_refl).
  split; reflexivity.
Qed.

Lemma created_row_is_found_witness :
  exists w1 w2,
    fetch (Sample.env_ok Sample.feed) (Sample.create Sample.hook Sample.general)
      (Sample.world [Sample.row2 7])
    = (Returned (text_response 201 "Webhook registered successfully"), w1) /\
    fetch (Sample.env_ok []) (Sample.lookup Sample.hook) w1
    = (Returned (found (Sample.row 103)), w2) /\
    table w2 = table w1.
Proof.
  apply (created_row_is_found (Sample.env_ok Sample.feed) (Sample.env_ok [])
           (Sample.create Sample.hook Sample.general) (Sample.lookup Sample.hook)
           Sample.hook Sample.general Sample.feed (Sample.world [Sample.row2 7])).
  - intros h. reflexivity.
  - repeat split. discriminate.
  - reflexivity.
  - reflexivity.
  - intros h. reflexivity.
  - repeat split. discriminate.
Defined.

(** X6: deleting a webhook right after its creation was answered 201 is
    answered 200 and gives back the table of before the creation; a GET for
    it is then answered 404 and a new creation 201 again. *)
Theorem delete_undoes_create env creation deletion lookup k payload w :
  d1_available env -> (forall h, exists ns, NOTICE_WORKER env h = Feed ns) ->
  is_create creation k payload -> is_delete deletion k -> is_lookup lookup k ->
  find (has_key k) (table w) = None ->
  exists w1 w2 w3 w4,
    fetch env creation w
    = (Returned (text_response 201 "Webhook registered successfully"), w1) /\
    fetch env deletion w1
    = (Returned (text_response 200 "Webhook deleted successfully"), w2) /\
    table w2 = table w /\
    fetch env lookup w2 = (Returned not_found, w3) /\
    fetch env creation w3
    = (Returned (text_response 201 "Webhook registered successfully"), w4).
Proof.
  intros Hdb Hfeeds Hc (Hp & Hm & Hq & Hk) (Hp' & Hm' & Hq' & _) Hnone.
  destruct (Hfeeds (trace w ++ [NoticeFetch (create_target payload)])) as (ns & Hf).
  rewrite (create_run env creation k payload ns w Hdb Hc Hf), Hnone. cbv zeta.
  set (row := mkDiscordBot k (first_id ns) (payload_query payload)).
  destruct (delete_last k (table w) row Hnone eq_refl) as [Hrest Hhit].
  assert (Hdel : forall w0, table w0 = table w ++ [row] ->
            fetch env deletion w0
            = (Returned (text_response 200 "Webhook deleted successfully"),
               mkWorld (table w) (trace w0 ++ [DbDelete k]))).
  { intros w0 Ht. unfold fetch, webhook_delete.
    rewrite Hp, Hm, Hq, (truthy_nonempty k Hk). cbn [String.eqb Ascii.eqb Bool.eqb].
    unfold try_catch, bind, db_delete. now rewrite Hdb, Ht, Hrest, Hhit. }
  assert (Hget : forall w0, table w0 = table w ->
            fetch env lookup w0
            = (Returned not_found, mkWorld (table w) (trace w0 ++ [DbSelect k]))).
  { intros w0 Ht. unfold fetch, webhook_get.
    rewrite Hp', Hm', Hq', (truthy_nonempty k Hk). cbn [String.eqb Ascii.eqb Bool.eqb].
    unfold bind, db_select_get. now rewrite Hdb, Ht, Hnone. }
  set (w1 := mkWorld (table w ++ [row]) _).
  set (w2 := mkWorld (table w) (trace w1 ++ [DbDelete k])).
  set (w3 := mkWorld (table w) (trace w2 ++ [DbSelect k])).
  destruct (Hfeeds (trace w3 ++ [NoticeFetch (create_target payload)])) as (ns' & Hf').
  exists w1, w2, w3. eexists. split; [reflexivity|]. split; [now apply Hdel|].
  split; [reflexivity|]. split; [now apply Hget|].
  rewrite (create_run env creation k payload ns' w3 Hdb Hc Hf').
  cbn [table w3]. rewrite Hnone. cbv zeta. reflexivity.
Qed.

Lemma delete_undoes_create_witness :
  exists w1 w2 w3 w4,
    fetch (Sample.env_ok Sample.feed) (Sample.create Sample.hook Sample.general)
      (Sample.world [Sample.row2 7])
    = (Returned (text_response 201 "Webhook registered successfully"), w1) /\
    fetch (Sample.env_ok Sample.feed) (Sample.delete Sample.hook) w1
    = (Returned (text_response 200 "Webhook deleted successfully"), w2) /\
    table w2 = [Sample.row2 7] /\
    fetch (Sample.env_ok Sample.feed) (Sample.lookup Sample.hook) w2
    = (Returned not_found, w3) /\
    fetch (Sample.env_ok Sample.feed) (Sample.create Sample.hook Sample.general) w3
    = (Returned (text_response 201 "Webhook registered successfully"), w4).
Proof.
  apply (delete_undoes_create (Sample.env_ok Sample.feed)
           (Sample.create Sample.hook Sample.general) (Sample.delete Sample.hook)
           (Sample.lookup Sample.hook) Sample.hook Sample.general
           (Sample.world [Sample.row2 7])).
  - intros h. reflexivity.
  - intros h. exists Sample.feed. reflexivity.
  - repeat split. discriminate.
  - repeat split. discriminate.
  - repeat split. discriminate.
  - reflexivity.
Defined.

(** ** Failures during a registration *)

(** A creation request whose body parses goes on with the notice fetch. *)
Lemma fetch_is_create env request k payload w :
  is_create request k payload ->
  fetch env request w =
    (notices <- notice_worker_fetch_json env (create_target payload) ;;
     latest <- latest_id notices ;;
     try_catch
       (info <- db_select_get env k ;;
        match info with
        | Some _ => ret (text_response 409 "Conflict: Duplicate entry for unique field")
        | None =>
            db_insert env (mkDiscordBot k latest (payload_query payload)) ;;;
            ret (text_response 201 "Webhook registered successfully")
        end)
       (ret internal_error)) w.
Proof.
  intros (Hp & Hm & Hq & Hk & Hbody). unfold fetch, webhook_post.
  rewrite Hp, Hm, Hq, (truthy_nonempty k Hk). cbn [String.eqb Ascii.eqb Bool.eqb].
  unfold request_json. rewrite Hbody. reflexivity.
Qed.

(** X7: a POST on [/api/webhook] with a non-empty [webhook].  A body that
    does not parse throws before anything is called.  A notice fetch that is
    rejected or is not JSON throws before any D1 statement, so that even a
    registered webhook gets the exception and not 409.  A D1 failure of the
    select, or of the insert after a select that found no row, is caught and
    answered 500.  In all these cases the table is as before. *)
Theorem create_failures env request k w :
  pathname request = "/api/webhook" -> method request = "POST" ->
  params_get "webhook" (searchParams request) = Some k -> k <> "" ->
  (json_body request = None -> fetch env request w = (Threw RequestJsonError, w)) /\
  (forall payload,
      json_body request = Some payload ->
      let fetched := trace w ++ [NoticeFetch (create_target payload)] in
      (forall e,
          feed_failure (NOTICE_WORKER env fetched) = Some e ->
          fetch env request w = (Threw e, mkWorld (table w) fetched)) /\
      (forall ns,
          NOTICE_WORKER env fetched = Feed ns ->
          let newRecord := mkDiscordBot k (first_id ns) (payload_query payload) in
          (DB env (fetched ++ [DbSelect k]) = false ->
           fetch env request w
           = (Returned internal_error, mkWorld (table w) (fetched ++ [DbSelect k]))) /\
          (DB env (fetched ++ [DbSelect k]) = true ->
           find (has_key k) (table w) = None ->
           DB env (fetched ++ [DbSelect k; DbInsert newRecord]) = false ->
           fetch env request w
           = (Returned internal_error,
              mkWorld (table w) (fetched ++ [DbSelect k; DbInsert newRecord]))))).
Proof.
  intros Hp Hm Hq Hk. split.
  - intros Hbody. unfold fetch, webhook_post.
    rewrite Hp, Hm, Hq, (truthy_nonempty k Hk). cbn [String.eqb Ascii.eqb Bool.eqb].
    unfold request_json. now rewrite Hbody.
  - intros payload Hbody fetched.
    assert (Hc : is_create request k payload) by (repeat split; assumption).
    split.
    + intros e Hfail. rewrite (fetch_is_create env request k payload w Hc).
      unfold bind, notice_worker_fetch_json. fold fetched.
      destruct (NOTICE_WORKER env fetched); simpl in Hfail; congruence.
    + intros ns Hfeed newRecord. split.
      * intros Hdb. rewrite (fetch_is_create env request k payload w Hc).
        unfold bind at 1, notice_worker_fetch_json. fold fetched. rewrite Hfeed.
        cbn [latest_id]. unfold bind at 1, ret at 1.
        unfold try_catch, bind, db_select_get. cbn [table trace]. now rewrite Hdb.
      * intros Hdb Hnone Hins.
        rewrite (create_reaches_insert env request k payload ns w Hc Hfeed);
          [|subst fetched; now rewrite <- app_assoc in Hdb|exact Hnone].
        unfold webhook_post_insert, try_catch, bind, db_insert. cbn [table trace].
        fold newRecord. subst fetched. rewrite <- !app_assoc in *. cbn [app] in *.
        now rewrite Hins.
Qed.

Lemma create_failures_witness :
  let w := Sample.world [Sample.row 100] in
  fetch (Sample.env_ok Sample.feed)
    (mkRequest "POST" "/api/webhook" [("webhook", Sample.hook)] None) w
  = (Threw RequestJsonError, w) /\
  fetch Sample.env_down (Sample.create Sample.hook Sample.general) w
  = (Threw NoticeWorkerError,
     mkWorld (table w) [NoticeFetch (create_target Sample.general)]) /\
  fetch (Sample.env_read_only Sample.feed) (Sample.create Sample.hook2 Sample.general) w
  = (Returned internal_error,
     mkWorld (table w)
       [NoticeFetch (create_target Sample.general); DbSelect Sample.hook2;
        DbInsert (mkDiscordBot Sample.hook2 103 "category=general")]).
Proof.
  split; [|split].
  - apply (proj1 (create_failures (Sample.env_ok Sample.feed)
                    (mkRequest "POST" "/api/webhook" [("webhook", Sample.hook)] None)
                    Sample.hook (Sample.world [Sample.row 100])
                    eq_refl eq_refl eq_refl ltac:(discriminate))).
    reflexivity.
  - apply (proj1 (proj2 (create_failures Sample.env_down
                           (Sample.create Sample.hook Sample.general)
                           Sample.hook (Sample.world [Sample.row 100])
                           eq_refl eq_refl eq_refl ltac:(discriminate))
                    Sample.general eq_refl)).
    reflexivity.
  - apply (proj2 (proj2 (proj2 (create_failures (Sample.env_read_only Sample.feed)
                                  (Sample.create Sample.hook2 Sample.general)
                                  Sample.hook2 (Sample.world [Sample.row 100])
                                  eq_refl eq_refl eq_refl ltac:(discriminate))
                           Sample.general eq_refl)
                    Sample.feed eq_refl));
      reflexivity.
Defined.

(** ** Failures during a refresh *)

(** X8: a refresh of webhook [k].  A D1 failure of the select escapes as an
    exception; an unregistered [k] is answered 404; in both cases the select
    is the only call made.  When the update of the watermark fails, the
    exception escapes before any POST: the table is as before and nothing has
    been sent. *)
Theorem refresh_failures env request k w :
  is_refresh request k ->
  let selected := mkWorld (table w) (trace w ++ [DbSelect k]) in
  (DB env (trace w ++ [DbSelect k]) = false ->
   fetch env request w = (Threw D1Error, selected)) /\
  (DB env (trace w ++ [DbSelect k]) = true ->
   (find (has_key k) (table w) = None ->
    fetch env request w = (Returned not_found, selected)) /\
   (forall info ns,
       find (has_key k) (table w) = Some info ->
       NOTICE_WORKER env (trace w ++ refresh_prelude k info) = Feed ns ->
       latestId info < first_id ns ->
       DB env (trace w ++ refresh_prelude k info ++ [DbUpdate k (first_id ns)]) = false ->
       fetch env request w
       = (Threw D1Error,
          mkWorld (table w)
            (trace w ++ refresh_prelude k info ++ [DbUpdate k (first_id ns)])))).
Proof.
  intros Hreq selected. split; [|intros Hdb; split].
  - intros Hdb. rewrite (fetch_is_refresh env request k w Hreq).
    unfold bind at 1, db_select_get. now rewrite Hdb.
  - intros Hnone. rewrite (fetch_is_refresh env request k w Hreq).
    unfold bind at 1, db_select_get. now rewrite Hdb, Hnone.
  - intros info ns Hfind Hfeed Hlt Hup. rewrite (fetch_is_refresh env request k w Hreq).
    unfold bind at 1, db_select_get. rewrite Hdb, Hfind.
    unfold bind at 1, notice_worker_fetch_json. cbn [table trace].
    rewrite <- app_assoc. cbn [app]. fold (refresh_prelude k info). rewrite Hfeed.
    assert (Hgt : (first_id ns >? latestId info) = true)
      by (rewrite Z.gtb_ltb; now apply Z.ltb_lt).
    unfold bind at 1. rewrite sync_parsed_notices.
    unfold sync_tail, bind. rewrite Hgt. unfold db_update_latestId.
    cbn [table trace]. rewrite <- app_assoc. now rewrite Hup.
Qed.

Lemma refresh_failures_witness :
  let w := Sample.world [Sample.row 100] in
  fetch (Sample.env_d1_down Sample.feed) (Sample.refresh Sample.hook) w
  = (Threw D1Error, mkWorld (table w) [DbSelect Sample.hook]) /\
  fetch (Sample.env_ok Sample.feed) (Sample.refresh Sample.hook2) w
  = (Returned not_found, mkWorld (table w) [DbSelect Sample.hook2]) /\
  fetch (Sample.env_read_only Sample.feed) (Sample.refresh Sample.hook) w
  = (Threw D1Error,
     mkWorld (table w)
       (refresh_prelude Sample.hook (Sample.row 100) ++ [DbUpdate Sample.hook 103])).
Proof.
  split; [|split].
  - apply (proj1 (refresh_failures (Sample.env_d1_down Sample.feed)
                    (Sample.refresh Sample.hook) Sample.hook
                    (Sample.world [Sample.row 100])
                    ltac:(repeat split; discriminate))).
    reflexivity.
  - apply (proj1 (proj2 (refresh_failures (Sample.env_ok Sample.feed)
                           (Sample.refresh Sample.hook2) Sample.hook2
                           (Sample.world [Sample.row 100])
                           ltac:(repeat split; discriminate))
                    eq_refl)).
    reflexivity.
  - apply (proj2 (proj2 (refresh_failures (Sample.env_read_only Sample.feed)
                           (Sample.refresh Sample.hook) Sample.hook
                           (Sample.world [Sample.row 100])
                           ltac:(repeat split; discriminate))
                    eq_refl)
             (Sample.row 100) Sample.feed).
    + reflexivity.
    + reflexivity.
    + simpl. lia.
    + reflexivity.
Defined.

(** ** What each route can answer *)

Lemma own_post_target k s :
  (forall ev, In ev s ->
              (exists v, ev = DbUpdate k v) \/ (exists form, ev = WebhookPost k form)) ->
  forall target form, In (WebhookPost target form) s -> target = k.
Proof.
  intros Hown target form Hin.
  destruct (Hown _ Hin) as [(v & H)|(f & H)]; [discriminate | now injection H].
Qed.

Lemma bind_ret_outcome {A B} (m : M A) (r0 : B) w :
  fst (bind m (fun _ => ret r0) w)
  = match fst (m w) with Returned _ => Returned r0 | Threw e => Threw e end.
Proof. unfold bind. now destruct (m w) as [[a|e'] w1]. Qed.

Lemma webhook_get_outcome env request w :
  match fst (webhook_get env request w) with
  | Returned r => In (status r) [200; 400; 404]
  | Threw e => e = D1Error
  end.
Proof.
  unfold webhook_get.
  destruct (params_get "webhook" (searchParams request)) as [k|];
    [destruct (truthy (Some k))|]; try (simpl; tauto).
  unfold bind, db_select_get. destruct (DB env _); [|reflexivity].
  destruct (find (has_key k) (table w)); simpl; tauto.
Qed.

Lemma webhook_post_outcome env request w :
  match fst (webhook_post env request w) with
  | Returned r => In (status r) [201; 400; 409; 500]
  | Threw e => e = RequestJsonError \/ e = NoticeWorkerError \/ e = NoticeJsonError
  end.
Proof.
  unfold webhook_post.
  destruct (params_get "webhook" (searchParams request)) as [k|];
    [destruct (truthy (Some k))|]; try (simpl; tauto).
  unfold request_json. destruct (json_body request) as [payload|]; [|simpl; tauto].
  unfold bind at 1, ret at 1. run_notice_fetch parsed; [|simpl; tauto].
  run_latest_id v; [|simpl; tauto].
  unfold try_catch, bind, db_select_get. cbn [table trace].
  destruct (DB env _); [|simpl; tauto].
  destruct (find (has_key k) (table w)); [simpl; tauto|].
  unfold db_insert. destruct (DB env _ && _); simpl; tauto.
Qed.

Lemma webhook_delete_outcome env request w :
  match fst (webhook_delete env request w) with
  | Returned r => In (status r) [200; 400; 404; 500]
  | Threw e => False
  end.
Proof.
  unfold webhook_delete.
  destruct (params_get "webhook" (searchParams request)) as [k|];
    [destruct (truthy (Some k))|]; try (simpl; tauto).
  unfold try_catch, bind, db_delete. destruct (DB env _);
    [destruct (_ =? 0)|]; simpl; tauto.
Qed.

Lemma webhook_refresh_outcome env request w :
  match fst (webhook_refresh env request w) with
  | Returned r => In (status r) [200; 400; 404]
  | Threw e => e = D1Error \/ e = NoticeWorkerError \/ e = NoticeJsonError \/
               e = WebhookFetchError
  end.
Proof.
  rewrite webhook_refresh_tail.
  destruct (params_get "webhook" (searchParams request)) as [k|];
    [destruct (truthy (Some k))|]; try (simpl; tauto).
  unfold bind at 1, db_select_get. destruct (DB env _); [|simpl; tauto].
  destruct (find (has_key k) (table w)) as [info|]; [|simpl; tauto].
  run_notice_fetch parsed; [|simpl; tauto].
  rewrite bind_ret_outcome.
  match goal with |- context [sync_parsed env k ?st parsed ?w0] =>
    destruct (sync_parsed_cases env k st parsed w0) as (o & t' & s & Hrun & _ & _ & Hexn)
  end.
  rewrite Hrun. cbn [fst]. destruct o as [[]|e]; [simpl; tauto|].
  destruct (Hexn e eq_refl) as [H|[H|H]]; tauto.
Qed.

(** X9: what [fetch] can answer on each route, whatever D1, the notice
    service and the endpoint do.  A GET answers 200, 400 or 404 and throws
    only on a D1 failure; a creation answers 201, 400, 409 or 500 and throws
    only for an unparseable body or a failed notice fetch, never for a D1
    failure; a DELETE always answers, with 200, 400, 404 or 500; a refresh
    answers 200, 400 or 404 and throws for a failure of D1, of the notice
    fetch or of a POST to the endpoint. *)
Theorem fetch_outcomes env request w :
  (pathname request = "/api/webhook" -> method request = "GET" ->
   (forall r, fst (fetch env request w) = Returned r -> In (status r) [200; 400; 404]) /\
   (forall e, fst (fetch env request w) = Threw e -> e = D1Error)) /\
  (pathname request = "/api/webhook" -> method request = "POST" ->
   (forall r, fst (fetch env request w) = Returned r ->
              In (status r) [201; 400; 409; 500]) /\
   (forall e, fst (fetch env request w) = Threw e ->
              e = RequestJsonError \/ e = NoticeWorkerError \/ e = NoticeJsonError)) /\
  (pathname request = "/api/webhook" -> method request = "DELETE" ->
   exists r, fst (fetch env request w) = Returned r /\
             In (status r) [200; 400; 404; 500]) /\
  (pathname request = "/api/webhook/refresh" -> method request = "POST" ->
   (forall r, fst (fetch env request w) = Returned r -> In (status r) [200; 400; 404]) /\
   (forall e, fst (fetch env request w) = Threw e ->
              e = D1Error \/ e = NoticeWorkerError \/ e = NoticeJsonError \/
              e = WebhookFetchError)).
Proof.
  unfold fetch. repeat apply conj; intros Hp Hm; rewrite Hp, Hm;
    cbn [String.eqb Ascii.eqb Bool.eqb negb].
  - pose proof (webhook_get_outcome env request w) as H.
    split; [intros r Hr | intros e He]; now rewrite ?Hr, ?He in H.
  - pose proof (webhook_post_outcome env request w) as H.
    split; [intros r Hr | intros e He]; now rewrite ?Hr, ?He in H.
  - pose proof (webhook_delete_outcome env request w) as H.
    destruct (fst (webhook_delete env request w)) as [r|e]; [|contradiction].
    now exists r.
  - pose proof (webhook_refresh_outcome env request w) as H.
    split; [intros r Hr | intros e He]; now rewrite ?Hr, ?He in H.
Qed.

Lemma fetch_outcomes_witness :
  (exists r,
      fst (fetch (Sample.env_d1_down Sample.feed) (Sample.delete Sample.hook)
             (Sample.world [Sample.row 100])) = Returned r /\
      In (status r) [200; 400; 404; 500]) /\
  (forall e,
      fst (fetch (Sample.env_d1_down Sample.feed)
             (Sample.create Sample.hook2 Sample.general)
             (Sample.world [Sample.row 100])) = Threw e ->
      e = RequestJsonError \/ e = NoticeWorkerError \/ e = NoticeJsonError).
Proof.
  split.
  - apply (proj1 (proj2 (proj2 (fetch_outcomes (Sample.env_d1_down Sample.feed)
                                  (Sample.delete Sample.hook)
                                  (Sample.world [Sample.row 100])))));
      reflexivity.
  - apply (proj1 (proj2 (fetch_outcomes (Sample.env_d1_down Sample.feed)
                           (Sample.create Sample.hook2 Sample.general)
                           (Sample.world [Sample.row 100]))));
      reflexivity.
Defined.

(** ** Requests concern one webhook *)

Lemma find_app {A} (f : A -> bool) l l' :
  find f (l ++ l') = match find f l with Some x => Some x | None => find f l' end.
Proof. induction l as [|a l IH]; simpl; [reflexivity|]. now destruct (f a). Qed.

Lemma find_set_other k k' v t :
  k' <> k -> find (has_key k') (map (set_latestId k v) t) = find (has_key k') t.
Proof.
  intros Hne. induction t as [|r t IH]; simpl; [reflexivity|].
  rewrite has_key_set. destruct (has_key k' r) eqn:E; [|exact IH].
  unfold set_latestId. destruct (has_key k r) eqn:E'; [|reflexivity].
  apply has_key_eq in E, E'. congruence.
Qed.

Lemma named_step_others k t t' :
  named_step k t t' ->
  forall k', k' <> k -> find (has_key k') t' = find (has_key k') t.
Proof.
  intros Hstep k' Hne. destruct Hstep as [|row Hrow| |v].
  - reflexivity.
  - rewrite find_app. destruct (find (has_key k') t); [reflexivity|]. simpl.
    destruct (has_key k' row) eqn:E; [|reflexivity].
    apply has_key_eq in E. congruence.
  - rewrite find_after_delete. apply String.eqb_neq in Hne. now rewrite Hne.
  - now apply find_set_other.
Qed.

Lemma fetch_named_step env request k w :
  params_get "webhook" (searchParams request) = Some k ->
  named_step k (table w) (table (snd (fetch env request w))).
Proof.
  intros Hq. unfold fetch.
  destruct (pathname request =? "/api/webhook")%string.
  - destruct (method request =? "OPTIONS")%string; [constructor|].
    destruct (method request =? "GET")%string.
    { unfold webhook_get. rewrite Hq. destruct (truthy (Some k)); [|constructor].
      unfold bind, db_select_get. destruct (DB env _); [|constructor].
      destruct (find (has_key k) (table w)); constructor. }
    destruct (method request =? "POST")%string.
    { unfold webhook_post. rewrite Hq. destruct (truthy (Some k)); [|constructor].
      unfold request_json. destruct (json_body request) as [payload|]; [|constructor].
      unfold bind at 1, ret at 1. run_notice_fetch parsed; [|constructor].
      run_latest_id v; [|constructor].
      unfold try_catch, bind, db_select_get. cbn [table trace].
      destruct (DB env _); [|constructor].
      destruct (find (has_key k) (table w)); [constructor|].
      unfold db_insert. cbn [table trace webhook].
      destruct (DB env _ && negb (existsb (has_key k) (table w))); [|constructor].
      cbn [snd table]. now apply named_insert. }
    destruct (method request =? "DELETE")%string; [|constructor].
    unfold webhook_delete. rewrite Hq. destruct (truthy (Some k)); [|constructor].
    unfold try_catch, bind, db_delete. destruct (DB env _); [|constructor].
    destruct (_ =? 0); apply named_delete.
  - destruct (pathname request =? "/api/webhook/refresh")%string; [|constructor].
    destruct (negb (method request =? "POST")%string); [constructor|].
    rewrite webhook_refresh_tail, Hq. destruct (truthy (Some k)); [|constructor].
    unfold bind at 1, db_select_get. destruct (DB env _); [|constructor].
    destruct (find (has_key k) (table w)) as [info|]; [|constructor].
    run_notice_fetch parsed; [|constructor].
    rewrite bind_ret_world.
    match goal with |- context [sync_parsed env k ?st parsed ?w0] =>
      destruct (sync_parsed_cases env k st parsed w0) as (o & t' & s & Hrun & Ht & _)
    end.
    rewrite Hrun. cbn [snd table]. destruct Ht as [->|(v & _ & ->)]; constructor.
Qed.

(** X10: whatever the route and whatever fails, a request that names
    webhook [k] leaves the row of every other webhook as it was: the lookup
    of any other key gives the same row before and after. *)
Theorem request_touches_only_its_webhook env request k w :
  params_get "webhook" (searchParams request) = Some k ->
  forall k', k' <> k ->
    find (has_key k') (table (snd (fetch env request w))) = find (has_key k') (table w).
Proof.
  intros Hq. apply named_step_others. now apply fetch_named_step.
Qed.

Lemma request_touches_only_its_webhook_witness :
  let w := Sample.world [Sample.row2 7; Sample.row 100; Sample.row3 9] in
  find (has_key Sample.hook2)
    (table (snd (fetch (Sample.env_ok Sample.feed) (Sample.refresh Sample.hook) w)))
  = Some (Sample.row2 7) /\
  find (has_key Sample.hook3)
    (table (snd (fetch (Sample.env_ok Sample.feed) (Sample.delete Sample.hook) w)))
  = Some (Sample.row3 9).
Proof.
  split.
  - apply (request_touches_only_its_webhook (Sample.env_ok Sample.feed)
             (Sample.refresh Sample.hook) Sample.hook
             (Sample.world [Sample.row2 7; Sample.row 100; Sample.row3 9])
             eq_refl Sample.hook2).
    discriminate.
  - apply (request_touches_only_its_webhook (Sample.env_ok Sample.feed)
             (Sample.delete Sample.hook) Sample.hook
             (Sample.world [Sample.row2 7; Sample.row 100; Sample.row3 9])
             eq_refl Sample.hook3).
    discriminate.
Defined.

(** ** Webhook and filter of a row never change *)

Lemma set_latestId_query k v r : queryParams (set_latestId k v r) = queryParams r.
Proof. unfold set_latestId. now destruct (has_key k r). Qed.

Lemma scheduled_body_rows {B} (f : DiscordBot -> B) env bot w :
  (forall k v r, f (set_latestId k v r) = f r) ->
  map f (table (snd (scheduled_body env bot w))) = map f (table w).
Proof.
  intros Hf. rewrite scheduled_body_is_sync. run_notice_fetch parsed; [|reflexivity].
  match goal with |- context [sync_parsed env ?k ?st parsed ?w0] =>
    destruct (sync_parsed_cases env k st parsed w0) as (o & t' & s & Hrun & Ht & _)
  end.
  rewrite Hrun. cbn [snd table]. destruct Ht as [->|(v & _ & ->)]; [reflexivity|].
  rewrite map_map. apply map_ext. intros r. apply Hf.
Qed.

Lemma sweep_rows {B} (f : DiscordBot -> B) env bots :
  (forall k v r, f (set_latestId k v r) = f r) ->
  forall w, map f (table (snd (for_of bots (scheduled_body env) w))) = map f (table w).
Proof.
  intros Hf. induction bots as [|bot rest IH]; intros w; simpl; [reflexivity|].
  unfold bind. pose proof (scheduled_body_rows f env bot w Hf) as Hbot.
  destruct (scheduled_body env bot w) as [[[]|e] w1]; cbn [snd] in *; [|exact Hbot].
  now rewrite IH.
Qed.

(** X11: only the watermark of a row is ever rewritten.  Whatever the
    request and whatever fails, a webhook that is registered before and after
    a call of [fetch] has the same webhook and the same query string in its
    row; and a run of [scheduled] neither adds, removes nor reorders rows and
    leaves every webhook and every query string as it was. *)
Theorem webhook_and_filter_are_immutable env w :
  (forall request k row row',
      find (has_key k) (table w) = Some row ->
      find (has_key k) (table (snd (fetch env request w))) = Some row' ->
      webhook row' = webhook row /\ queryParams row' = queryParams row) /\
  map webhook (table (snd (scheduled env w))) = map webhook (table w) /\
  map queryParams (table (snd (scheduled env w))) = map queryParams (table w).
Proof.
  split.
  - intros request k row row' Hrow.
    destruct (fetch_table_step env request w) as [|new Hfresh|k0|k0 info v Hfind Hlt].
    + rewrite Hrow. now intros [= <-].
    + rewrite (find_app_some _ _ _ _ Hrow). now intros [= <-].
    + rewrite find_after_delete. destruct (k =? k0)%string; [discriminate|].
      rewrite Hrow. now intros [= <-].
    + destruct (String.eqb_spec k k0) as [<-|Hne].
      * rewrite find_set_latestId, Hrow. simpl. intros [= <-].
        split; [apply set_latestId_key | apply set_latestId_query].
      * rewrite (find_set_other k0 k v _ Hne), Hrow. now intros [= <-].
  - assert (Hrows : forall B (f : DiscordBot -> B),
               (forall k v r, f (set_latestId k v r) = f r) ->
               map f (table (snd (scheduled env w))) = map f (table w)).
    { intros B f Hf. unfold scheduled, bind at 1, db_select_all.
      destruct (DB env _); [|reflexivity].
      apply (sweep_rows f env (table w) Hf (mkWorld (table w) _)). }
    split; apply Hrows; intros k v r;
      [apply set_latestId_key | apply set_latestId_query].
Qed.

Lemma webhook_and_filter_are_immutable_witness :
  let w := Sample.world [Sample.row2 7; Sample.row 100] in
  (forall row',
      find (has_key Sample.hook)
        (table (snd (fetch (Sample.env_ok Sample.feed) (Sample.refresh Sample.hook) w)))
      = Some row' ->
      webhook row' = Sample.hook /\ queryParams row' = "category=general") /\
  map queryParams (table (snd (scheduled (Sample.env_ok Sample.feed) w)))
  = ["search=exam"; "category=general"].
Proof.
  destruct (webhook_and_filter_are_immutable (Sample.env_ok Sample.feed)
              (Sample.world [Sample.row2 7; Sample.row 100])) as (Hfetch & _ & Hq).
  split; [|exact Hq].
  intros row' Hrow'.
  apply (Hfetch (Sample.refresh Sample.hook) Sample.hook (Sample.row 100) row');
    [reflexivity | exact Hrow'].
Defined.

(** ** Where messages go *)

Ltac no_posts :=
  cbn [snd table trace]; rewrite <- ?app_assoc;
  first [ eexists; split; [reflexivity|]
        | exists []; split; [now rewrite app_nil_r|] ];
  intros target form Hin; simpl in Hin; intuition discriminate.

Lemma webhook_get_posts env request w :
  exists s, trace (snd (webhook_get env request w)) = trace w ++ s /\
            forall target form, ~ In (WebhookPost target form) s.
Proof.
  unfold webhook_get.
  destruct (params_get "webhook" (searchParams request)) as [k|];
    [destruct (truthy (Some k))|]; try (unfold ret; no_posts).
  unfold bind, db_select_get. destruct (DB env _); [|no_posts].
  destruct (find (has_key k) (table w)); unfold ret; no_posts.
Qed.

Lemma webhook_post_posts env request w :
  exists s, trace (snd (webhook_post env request w)) = trace w ++ s /\
            forall target form, ~ In (WebhookPost target form) s.
Proof.
  unfold webhook_post.
  destruct (params_get "webhook" (searchParams request)) as [k|];
    [destruct (truthy (Some k))|]; try (unfold ret; no_posts).
  unfold request_json. destruct (json_body request) as [payload|];
    [|unfold throw; no_posts].
  unfold bind at 1, ret at 1. run_notice_fetch parsed; [|no_posts].
  run_latest_id v; [|no_posts].
  unfold try_catch, bind, db_select_get. cbn [table trace].
  destruct (DB env _); [|unfold ret; no_posts].
  destruct (find (has_key k) (table w)); [unfold ret; no_posts|].
  unfold db_insert. destruct (DB env _ && _); unfold ret; no_posts.
Qed.

Lemma webhook_delete_posts env request w :
  exists s, trace (snd (webhook_delete env request w)) = trace w ++ s /\
            forall target form, ~ In (WebhookPost target form) s.
Proof.
  unfold webhook_delete.
  destruct (params_get "webhook" (searchParams request)) as [k|];
    [destruct (truthy (Some k))|]; try (unfold ret; no_posts).
  unfold try_catch, bind, db_delete. destruct (DB env _);
    [destruct (_ =? 0)|]; unfold ret; no_posts.
Qed.

Lemma find_some_key k t row :
  find (has_key k) t = Some row -> In k (map webhook t).
Proof.
  intros H. apply find_some in H as [Hin Hk]. apply has_key_eq in Hk.
  rewrite <- Hk. now apply in_map.
Qed.

Lemma webhook_refresh_posts env request w :
  exists s, trace (snd (webhook_refresh env request w)) = trace w ++ s /\
            forall target form,
              In (WebhookPost target form) s ->
              params_get "webhook" (searchParams request) = Some target /\
              In target (map webhook (table w)).
Proof.
  rewrite webhook_refresh_tail.
  destruct (params_get "webhook" (searchParams request)) as [k|];
    [destruct (truthy (Some k))|]; try (unfold ret; no_posts).
  unfold bind at 1, db_select_get. destruct (DB env _); [|no_posts].
  destruct (find (has_key k) (table w)) as [info|] eqn:Hfind; [|unfold ret; no_posts].
  run_notice_fetch parsed; [|no_posts].
  rewrite bind_ret_world.
  match goal with |- context [sync_parsed env k ?st parsed ?w0] =>
    destruct (sync_parsed_cases env k st parsed w0) as (o & t' & s & Hrun & _ & Hown & _)
  end.
  rewrite Hrun. cbn [snd trace]. rewrite <- !app_assoc. eexists. split; [reflexivity|].
  intros target form [Hin|[Hin|Hin]]; try discriminate.
  rewrite (own_post_target k s Hown target form Hin). split; [reflexivity|].
  now apply (find_some_key k (table w) info).
Qed.

Lemma scheduled_body_posts env bot w :
  exists s, trace (snd (scheduled_body env bot w)) = trace w ++ s /\
            forall target form, In (WebhookPost target form) s -> target = webhook bot.
Proof.
  rewrite scheduled_body_is_sync. run_notice_fetch parsed; [|no_posts].
  match goal with |- context [sync_parsed env ?k ?st parsed ?w0] =>
    destruct (sync_parsed_cases env k st parsed w0) as (o & t' & s & Hrun & _ & Hown & _)
  end.
  rewrite Hrun. cbn [snd trace]. rewrite <- !app_assoc. eexists. split; [reflexivity|].
  intros target form [Hin|Hin];
    [discriminate | now apply (own_post_target _ s Hown target form)].
Qed.

Lemma sweep_posts env bots :
  forall w, exists s,
    trace (snd (for_of bots (scheduled_body env) w)) = trace w ++ s /\
    forall target form, In (WebhookPost target form) s -> In target (map webhook bots).
Proof.
  induction bots as [|bot rest IH]; intros w; simpl.
  - exists []. split; [now rewrite app_nil_r | contradiction].
  - unfold bind. destruct (scheduled_body_posts env bot w) as (s & Hs & Hto).
    destruct (scheduled_body env bot w) as [[[]|e] w1]; cbn [snd] in *.
    + destruct (IH w1) as (s' & Hs' & Hto').
      exists (s ++ s'). split; [rewrite Hs', Hs; now rewrite app_assoc|].
      intros target form Hin. apply in_app_or in Hin as [Hin|Hin].
      * left. symmetry. now apply (Hto target form).
      * right. now apply (Hto' target form).
    + exists s. split; [exact Hs|]. intros target form Hin.
      left. symmetry. now apply (Hto target form).
Qed.

(** X12: messages go to registered webhooks only.  Whatever fails, the
    only call of [fetch] that posts to a webhook is a POST on
    [/api/webhook/refresh], and it posts to the webhook named in the request,
    which is registered; lookups, registrations and deletions post nothing.
    Every POST of a run of [scheduled] goes to a webhook of the table. *)
Theorem posts_go_to_registered_webhooks env w :
  (forall request, exists s,
      trace (snd (fetch env request w)) = trace w ++ s /\
      forall target form,
        In (WebhookPost target form) s ->
        pathname request = "/api/webhook/refresh" /\ method request = "POST" /\
        params_get "webhook" (searchParams request) = Some target /\
        In target (map webhook (table w))) /\
  (exists s,
      trace (snd (scheduled env w)) = trace w ++ s /\
      forall target form,
        In (WebhookPost target form) s -> In target (map webhook (table w))).
Proof.
  split.
  - intros request. unfold fetch.
    destruct (String.eqb_spec (pathname request) "/api/webhook") as [Hp|Hp].
    + destruct (method request =? "OPTIONS")%string; [unfold webhook_options, ret; no_posts|].
      destruct (method request =? "GET")%string.
      { destruct (webhook_get_posts env request w) as (s & Hs & Hno).
        exists s. split; [exact Hs|]. intros target form Hin. now apply Hno in Hin. }
      destruct (method request =? "POST")%string.
      { destruct (webhook_post_posts env request w) as (s & Hs & Hno).
        exists s. split; [exact Hs|]. intros target form Hin. now apply Hno in Hin. }
      destruct (method request =? "DELETE")%string; [|unfold ret; no_posts].
      destruct (webhook_delete_posts env request w) as (s & Hs & Hno).
      exists s. split; [exact Hs|]. intros target form Hin. now apply Hno in Hin.
    + destruct (String.eqb_spec (pathname request) "/api/webhook/refresh") as [Hr|Hr];
        [|unfold ret; no_posts].
      destruct (String.eqb_spec (method request) "POST") as [Hm|Hm];
        cbn [negb]; [|unfold ret; no_posts].
      destruct (webhook_refresh_posts env request w) as (s & Hs & Hto).
      exists s. split; [exact Hs|]. intros target form Hin.
      destruct (Hto target form Hin). auto.
  - unfold scheduled, bind at 1, db_select_all. destruct (DB env _); [|no_posts].
    destruct (sweep_posts env (table w) (mkWorld (table w) (trace w ++ [DbSelectAll])))
      as (s & Hs & Hto).
    rewrite Hs. cbn [trace]. rewrite <- app_assoc. eexists. split; [reflexivity|].
    intros target form [Hin|Hin]; [discriminate | now apply (Hto target form)].
Qed.

Lemma posts_go_to_registered_webhooks_witness :
  let w := Sample.world [Sample.row2 7; Sample.row 100] in
  exists s,
    trace (snd (scheduled (Sample.env_post_fails Sample.feed 2) w)) = trace w ++ s /\
    forall target form,
      In (WebhookPost target form) s -> In target [Sample.hook2; Sample.hook].
Proof.
  apply (proj2 (posts_go_to_registered_webhooks (Sample.env_post_fails Sample.feed 2)
                  (Sample.world [Sample.row2 7; Sample.row 100]))).
Defined.

(** ** The whole sweep *)

Lemma set_latestId_others k v l :
  (forall r, In r l -> webhook r <> k) -> map (set_latestId k v) l = l.
Proof.
  induction l as [|r l IH]; intros Hne; simpl; [reflexivity|].
  rewrite IH by (intros r' Hr'; apply Hne; now right).
  unfold set_latestId. destruct (has_key k r) eqn:E; [|reflexivity].
  apply has_key_eq in E. exfalso. apply (Hne r); [now left | exact E].
Qed.

(** With unique keys the update of a sync rewrites the row of [bot] alone. *)
Lemma update_one_row bot v done rest :
  unique_keys (done ++ bot :: rest) ->
  map (set_latestId (webhook bot) v) (done ++ bot :: rest)
  = done ++ mkDiscordBot (webhook bot) v (queryParams bot) :: rest.
Proof.
  unfold unique_keys. rewrite map_app. simpl. intros Hnd.
  apply NoDup_remove_2 in Hnd.
  rewrite map_app. simpl. unfold set_latestId at 2, has_key at 1.
  rewrite String.eqb_refl.
  rewrite !set_latestId_others; [reflexivity| |];
    intros r Hr Hk; apply Hnd, in_or_app; [right|left]; rewrite <- Hk; now apply in_map.
Qed.

Lemma sweep_row_updated feeds bot done rest :
  unique_keys (done ++ bot :: rest) ->
  updated_table (webhook bot) (latestId bot) (feeds (scheduled_target bot))
    (done ++ bot :: rest)
  = done ++ sweep_row feeds bot :: rest.
Proof.
  intros Hnd. unfold updated_table, sweep_row.
  destruct (first_id _ >? latestId bot); [now apply update_one_row | reflexivity].
Qed.

Lemma sweep_row_key feeds bot :
  webhook (sweep_row feeds bot) = webhook bot /\
  queryParams (sweep_row feeds bot) = queryParams bot /\
  latestId (sweep_row feeds bot)
  = Z.max (latestId bot) (first_id (feeds (scheduled_target bot))).
Proof.
  unfold sweep_row.
  destruct (first_id _ >? latestId bot) eqn:E; rewrite Z.gtb_ltb in E; simpl.
  - apply Z.ltb_lt in E. repeat split. lia.
  - apply Z.ltb_ge in E. repeat split. lia.
Qed.

(** The loop of the sweep when every collaborator answers: row after row,
    the rows already synced are [done]. *)
Lemma sweep_run env feeds :
  d1_available env -> endpoint_reachable env -> serves env feeds ->
  forall rest done h,
    unique_keys (done ++ rest) ->
    for_of rest (scheduled_body env) (mkWorld (done ++ rest) h)
    = (Returned tt,
       mkWorld (done ++ map (sweep_row feeds) rest)
         (h ++ flat_map (sweep_events feeds) rest)).
Proof.
  intros Hdb Hok Hfeeds. induction rest as [|bot rest IH]; intros done h Hnd.
  - simpl. unfold ret. now rewrite !app_nil_r.
  - cbn [for_of]. unfold bind.
    rewrite (scheduled_body_reaches_tail env bot (feeds (scheduled_target bot)) _
               (Hfeeds _ _)).
    rewrite sync_tail_ok by assumption. cbn [table trace].
    rewrite (sweep_row_updated feeds bot done rest Hnd).
    replace (done ++ sweep_row feeds bot :: rest)
      with ((done ++ [sweep_row feeds bot]) ++ rest) by now rewrite <- app_assoc.
    rewrite IH.
    + cbn [map flat_map]. unfold sweep_events at 2.
      rewrite <- ?app_assoc. cbn [app]. rewrite <- ?app_assoc. reflexivity.
    + unfold unique_keys in *. rewrite <- app_assoc. cbn [app].
      rewrite map_app in *. cbn [map] in *.
      now rewrite (proj1 (sweep_row_key feeds bot)).
Qed.

Lemma scheduled_run env feeds w :
  d1_available env -> endpoint_reachable env -> serves env feeds ->
  unique_keys (table w) ->
  scheduled env w
  = (Returned tt,
     mkWorld (map (sweep_row feeds) (table w))
       (trace w ++ DbSelectAll :: flat_map (sweep_events feeds) (table w))).
Proof.
  intros Hdb Hok Hfeeds Hnd. unfold scheduled, bind at 1, db_select_all. rewrite Hdb.
  rewrite (sweep_run env feeds Hdb Hok Hfeeds (table w) [] _ Hnd).
  cbn [app]. now rewrite <- app_assoc.
Qed.

(** X13: a run of [scheduled] in which D1 is available, the notice service
    answers every query with its list and no POST is rejected returns after
    one select of all rows followed, row after row in table order, by the
    fetch for the row's query, the update of its watermark when the first id
    of the list exceeds it, and one POST per newer notice, oldest first.
    Afterwards the table has the same rows in the same order, each with its
    webhook and query unchanged and with the larger of its watermark and the
    first id of its list. *)
Theorem sweep_syncs_every_row env feeds w :
  d1_available env -> endpoint_reachable env -> serves env feeds ->
  unique_keys (table w) ->
  exists w',
    scheduled env w = (Returned tt, w') /\
    trace w' = trace w ++ DbSelectAll :: flat_map (sweep_events feeds) (table w) /\
    Forall2 (fun bot bot' =>
               webhook bot' = webhook bot /\ queryParams bot' = queryParams bot /\
               latestId bot'
               = Z.max (latestId bot) (first_id (feeds (scheduled_target bot))))
      (table w) (table w').
Proof.
  intros Hdb Hok Hfeeds Hnd. eexists. split; [now apply scheduled_run|].
  cbn [table trace]. split; [reflexivity|].
  clear Hnd. induction (table w) as [|bot t IH]; simpl; constructor;
    solve [apply sweep_row_key | exact IH].
Qed.

Lemma sweep_syncs_every_row_witness :
  exists w',
    scheduled Sample.env_feeds (Sample.world [Sample.row2 7; Sample.row 100])
    = (Returned tt, w') /\
    trace w' = [DbSelectAll; NoticeFetch (scheduled_target (Sample.row2 7));
                NoticeFetch (scheduled_target (Sample.row 100));
                DbUpdate Sample.hook 103]
               ++ posts Sample.hook
                    [Sample.notice 101 "n101"; Sample.notice 102 "n102";
                     Sample.notice 103 "n103"] /\
    table w' = [Sample.row2 7; Sample.row 103].
Proof.
  destruct (sweep_syncs_every_row Sample.env_feeds Sample.feeds
              (Sample.world [Sample.row2 7; Sample.row 100]))
    as (w' & Hrun & Htrace & _).
  - intros h. reflexivity.
  - intros h. discriminate.
  - intros h t. unfold Sample.env_feeds. cbn [NOTICE_WORKER]. now rewrite last_last.
  - repeat constructor; simpl; intuition discriminate.
  - exists w'. split; [exact Hrun|]. split; [exact Htrace|].
    vm_compute in Hrun. injection Hrun as <-. reflexivity.
Defined.

(** A loop over rows that are all up to date with their lists only fetches. *)
Lemma sweep_quiet env feeds :
  serves env feeds ->
  forall bots w,
    (forall bot, In bot bots ->
                 newest_first (feeds (scheduled_target bot)) /\
                 first_id (feeds (scheduled_target bot)) <= latestId bot) ->
    for_of bots (scheduled_body env) w
    = (Returned tt,
       mkWorld (table w)
         (trace w ++ map (fun bot => NoticeFetch (scheduled_target bot)) bots)).
Proof.
  intros Hfeeds. induction bots as [|bot rest IH]; intros w Hup.
  - simpl. unfold ret. now rewrite world_eta.
  - cbn [for_of map]. unfold bind.
    rewrite (scheduled_body_reaches_tail env bot (feeds (scheduled_target bot)) w
               (Hfeeds _ _)).
    destruct (Hup bot (or_introl eq_refl)) as [Hs Hle].
    rewrite (sync_tail_silent env _ _ _ _ Hs Hle).
    rewrite IH by (intros b Hb; apply Hup; now right).
    cbn [table trace]. now rewrite <- app_assoc.
Qed.

(** X14: the sweep is idempotent on unchanged lists.  After a run of
    [scheduled] in which everything answered, a second run that is served the
    same newest-first lists selects the rows, fetches the list of each row in
    table order and does nothing else: no update, no POST, the table as the
    first run left it. *)
Theorem second_sweep_is_silent env env2 feeds w :
  d1_available env -> endpoint_reachable env -> serves env feeds ->
  unique_keys (table w) ->
  (forall t, newest_first (feeds t)) ->
  d1_available env2 -> serves env2 feeds ->
  exists w1,
    scheduled env w = (Returned tt, w1) /\
    scheduled env2 w1
    = (Returned tt,
       mkWorld (table w1)
         (trace w1 ++ DbSelectAll
            :: map (fun bot => NoticeFetch (scheduled_target bot)) (table w1))).
Proof.
  intros Hdb Hok Hfeeds Hnd Hs Hdb2 Hfeeds2.
  eexists. split; [now apply (scheduled_run env feeds)|].
  unfold scheduled, bind at 1, db_select_all. rewrite Hdb2. cbn [table trace].
  rewrite (sweep_quiet env2 feeds Hfeeds2).
  - cbn [table trace]. now rewrite <- app_assoc.
  - intros bot' Hin. apply in_map_iff in Hin as (bot & <- & _).
    destruct (sweep_row_key feeds bot) as (_ & Hq & Hv).
    unfold scheduled_target. rewrite Hq. fold (scheduled_target bot).
    split; [apply Hs|]. rewrite Hv. lia.
Qed.

Lemma second_sweep_is_silent_witness :
  exists w1,
    scheduled Sample.env_feeds (Sample.world [Sample.row2 7; Sample.row 100])
    = (Returned tt, w1) /\
    scheduled Sample.env_feeds w1
    = (Returned tt,
       mkWorld (table w1)
         (trace w1 ++ DbSelectAll
            :: map (fun bot => NoticeFetch (scheduled_target bot)) (table w1))).
Proof.
  assert (Hserves : serves Sample.env_feeds Sample.feeds).
  { intros h t. unfold Sample.env_feeds. cbn [NOTICE_WORKER]. now rewrite last_last. }
  apply (second_sweep_is_silent Sample.env_feeds Sample.env_feeds Sample.feeds
           (Sample.world [Sample.row2 7; Sample.row 100])).
  - intros h. reflexivity.
  - intros h. discriminate.
  - exact Hserves.
  - repeat constructor; simpl; intuition discriminate.
  - intros t. unfold Sample.feeds.
    destruct (t =? scheduled_target (Sample.row 0))%string;
      repeat constructor; simpl; lia.
  - intros h. reflexivity.
  - exact Hserves.
Defined.

(** The edges of the sweep: when the select of all rows fails, [scheduled]
    throws and has called nothing else; on an empty table it returns after
    that select alone. *)
Remark sweep_without_rows env w :
  (DB env (trace w ++ [DbSelectAll]) = false ->
   scheduled env w = (Threw D1Error, mkWorld (table w) (trace w ++ [DbSelectAll]))) /\
  (DB env (trace w ++ [DbSelectAll]) = true -> table w = [] ->
   scheduled env w = (Returned tt, mkWorld [] (trace w ++ [DbSelectAll]))).
Proof.
  split.
  - intros Hdb. unfold scheduled, bind, db_select_all. now rewrite Hdb.
  - intros Hdb Ht. unfold scheduled, bind, db_select_all. now rewrite Hdb, Ht.
Qed.

(** ** Refreshing again *)

Lemma refresh_times_silent env request k info ns w :
  d1_available env -> is_refresh request k ->
  (forall h, NOTICE_WORKER env h = Feed ns) ->
  newest_first ns -> first_id ns <= latestId info ->
  find (has_key k) (table w) = Some info ->
  forall n,
    refresh_times env request n w
    = (Returned tt,
       mkWorld (table w) (trace w ++ List.concat (repeat (refresh_prelude k info) n))).
Proof.
  intros Hdb Hreq Hfeed Hs Hle Hfind n. revert w Hfind.
  induction n as [|n IH]; intros w Hfind.
  - simpl. unfold ret. now rewrite world_eta.
  - cbn [refresh_times repeat List.concat]. unfold bind at 1.
    rewrite (refresh_reaches_tail env request k info ns w Hdb Hreq Hfind (Hfeed _)).
    unfold bind at 1. rewrite (sync_tail_silent env k (latestId info) ns _ Hs Hle).
    unfold ret at 1. rewrite IH by exact Hfind.
    cbn [table trace]. now rewrite <- app_assoc.
Qed.

(** X15: no notice is posted twice.  With everything answering and the
    notice service returning the same newest-first list each time, the first
    of [n + 1] refreshes in a row updates the watermark and posts the newer
    notices, and each of the [n] others only selects the row and fetches the
    list. *)
Theorem refresh_again_posts_nothing env request k info ns w n :
  d1_available env -> endpoint_reachable env -> is_refresh request k ->
  (forall h, NOTICE_WORKER env h = Feed ns) -> newest_first ns ->
  find (has_key k) (table w) = Some info ->
  refresh_times env request (S n) w
  = (Returned tt,
     mkWorld (updated_table k (latestId info) ns (table w))
       (trace w ++ refresh_prelude k info
          ++ update_event k (latestId info) ns
          ++ posts k (newNotices ns (latestId info))
          ++ List.concat (repeat (refresh_prelude k info) n))).
Proof.
  intros Hdb Hok Hreq Hfeed Hs Hfind.
  cbn [refresh_times]. unfold bind at 1.
  rewrite (refresh_reaches_tail env request k info ns w Hdb Hreq Hfind (Hfeed _)).
  unfold bind at 1. rewrite sync_tail_ok by assumption. unfold ret at 1.
  set (info' := if first_id ns >? latestId info
                then set_latestId k (first_id ns) info else info).
  assert (Hfind' : find (has_key k) (updated_table k (latestId info) ns (table w))
                   = Some info').
  { unfold updated_table, info'. destruct (first_id ns >? latestId info); [|exact Hfind].
    now rewrite find_set_latestId, Hfind. }
  assert (Hq : refresh_prelude k info' = refresh_prelude k info).
  { unfold refresh_prelude, refresh_target, info'.
    destruct (first_id ns >? latestId info); [|reflexivity].
    now rewrite set_latestId_query. }
  assert (Hle : first_id ns <= latestId info').
  { unfold info'. destruct (first_id ns >? latestId info) eqn:E.
    - unfold set_latestId. apply find_some in Hfind as [_ Hk]. rewrite Hk. simpl. lia.
    - rewrite Z.gtb_ltb in E. now apply Z.ltb_ge in E. }
  match goal with |- context [refresh_times env request n ?w1] =>
    rewrite (refresh_times_silent env request k info' ns w1 Hdb Hreq Hfeed Hs Hle Hfind' n)
  end.
  cbn [table trace]. rewrite Hq. now rewrite <- !app_assoc.
Qed.

Lemma refresh_again_posts_nothing_witness :
  refresh_times (Sample.env_ok Sample.feed) (Sample.refresh Sample.hook) 3
    (Sample.world [Sample.row 100])
  = (Returned tt,
     mkWorld [Sample.row 103]
       (refresh_prelude Sample.hook (Sample.row 100)
          ++ [DbUpdate Sample.hook 103]
          ++ posts Sample.hook
               [Sample.notice 101 "n101"; Sample.notice 102 "n102";
                Sample.notice 103 "n103"]
          ++ refresh_prelude Sample.hook (Sample.row 100)
          ++ refresh_prelude Sample.hook (Sample.row 100))).
Proof.
  apply (refresh_again_posts_nothing (Sample.env_ok Sample.feed)
           (Sample.refresh Sample.hook) Sample.hook (Sample.row 100) Sample.feed
           (Sample.world [Sample.row 100]) 2).
  - intros h. reflexivity.
  - intros h. discriminate.
  - repeat split. discriminate.
  - intros h. reflexivity.
  - repeat constructor; simpl; lia.
  - reflexivity.
Defined.

(** ** The filter of a registration *)

(** X16: a field of the payload that is an empty string counts as absent:
    the query string stored and fetched for a payload is that of the payload
    with its empty fields removed, and with no field left it is empty, so
    that the fetch goes to [/api/notices?] with nothing after the mark. *)
Theorem empty_fields_are_left_out c d s :
  payload_query (mkPayload c d s)
  = payload_query (mkPayload (without_empty c) (without_empty d) (without_empty s)) /\
  (truthy c = false -> truthy d = false -> truthy s = false ->
   payload_query (mkPayload c d s) = "" /\
   create_target (mkPayload c d s)
   = "https://ajou-notice.asitis.workers.dev/api/notices?").
Proof.
  assert (Happ : forall name o ps,
             append_if name o ps = append_if name (without_empty o) ps).
  { intros name [v|] ps; [|reflexivity]. unfold without_empty, append_if.
    destruct (truthy (Some v)) eqn:E; [now rewrite E | reflexivity]. }
  assert (Hskip : forall name o ps, truthy o = false -> append_if name o ps = ps).
  { intros name [v|] ps H; [|reflexivity]. unfold append_if. now rewrite H. }
  split.
  - unfold payload_query. cbn [p_category p_department p_search].
    now rewrite (Happ "category" c), (Happ "department" d), (Happ "search" s).
  - intros Hc Hd Hs.
    assert (Hq : payload_query (mkPayload c d s) = "").
    { unfold payload_query. cbn [p_category p_department p_search].
      now rewrite !Hskip. }
    split; [exact Hq|]. unfold create_target. now rewrite Hq.
Qed.

Lemma empty_fields_are_left_out_witness :
  payload_query (mkPayload (Some "") None (Some ""))
  = payload_query (mkPayload None None None) /\
  create_target (mkPayload (Some "") None (Some ""))
  = "https://ajou-notice.asitis.workers.dev/api/notices?".
Proof.
  destruct (empty_fields_are_left_out (Some "") None (Some "")) as [Heq Hempty].
  split; [exact Heq|]. now apply Hempty.
Defined.

(** ** The sweep, whatever fails *)


Section SweepSteps.

Variable env : Env.
















End SweepSteps.


